(** * Simple Banking System: card numbers, the card table and the session menu

    A shallow embedding of [banking.py] and [database.py].

    - Python [str] values are Rocq strings; a character is a code point in
      0..255.
    - Python [int] values are [Z].  The column [balance] is in [Z] as well:
      the 64-bit range of the storage engine's integers is not modelled.
    - An uncaught exception ends the program: a computation yields either
      [Ok v] or [Raise e], and nothing in the program catches an exception.
    - The console, the random generator and the table [card] form the
      [world] that every effectful function threads through.  The table is
      a finite map from [number], which the schema declares UNIQUE, to the
      pair of [pin] and [balance]; the column [id] is never read.
    - The two [while True] loops take a bound on their number of turns;
      [main_stops] shows that the bound given by [main] is never reached. *)

From Stdlib Require Import ZArith Ascii String List Lia Bool.
From stdpp Require Import gmap strings list fin_maps pretty.

Open Scope string_scope.
Open Scope list_scope.
Open Scope Z_scope.

(** ** Exceptions and results *)

Inductive exn : Type :=
| ValueError
| IndexError
| EOFError
| NotImplementedError
| IntegrityError
| SystemExit
| OutOfFuel. (* not a Python exception: the iteration bound of a [while True] loop *)

Inductive result (A : Type) : Type :=
| Ok (a : A)
| Raise (e : exn).
Arguments Ok {A} a.
Arguments Raise {A} e.

Definition rbind {A B} (r : result A) (k : A -> result B) : result B :=
  match r with
  | Ok a => k a
  | Raise e => Raise e
  end.

Declare Scope result_scope.
Delimit Scope result_scope with result.
Notation "x <- c1 ;; c2" := (rbind c1 (fun x => c2))
  (at level 100, c1 at next level, right associativity) : result_scope.

(** ** Python primitives *)

Module Py.

(** The decimal value of a character, for '0'..'9'. *)
Definition digit_val (c : ascii) : option Z :=
  let n := nat_of_ascii c in
  if ((48 <=? n) && (n <=? 57))%nat then Some (Z.of_nat n - 48) else None.

(** The characters [int()] skips around a literal. *)
Definition is_space (c : ascii) : bool :=
  let n := nat_of_ascii c in
  (((9 <=? n) && (n <=? 13)) || (n =? 32) || (n =? 133) || (n =? 160))%nat.

Definition is_underscore (c : ascii) : bool := (nat_of_ascii c =? 95)%nat.

Fixpoint lstrip (s : list ascii) : list ascii :=
  match s with
  | c :: s' => if is_space c then lstrip s' else s
  | [] => []
  end.

Definition strip (s : list ascii) : list ascii :=
  rev (lstrip (rev (lstrip s))).

(** The digits that follow a digit: single underscores may separate them. *)
Fixpoint digits_go (acc : Z) (s : list ascii) : option Z :=
  match s with
  | [] => Some acc
  | c :: s' =>
      if is_underscore c then
        match s' with
        | d :: s'' =>
            match digit_val d with
            | Some v => digits_go (acc * 10 + v) s''
            | None => None
            end
        | [] => None
        end
      else
        match digit_val c with
        | Some v => digits_go (acc * 10 + v) s'
        | None => None
        end
  end.

Definition digits (s : list ascii) : option Z :=
  match s with
  | c :: s' =>
      match digit_val c with
      | Some v => digits_go v s'
      | None => None
      end
  | [] => None
  end.

Definition signed (s : list ascii) : option Z :=
  match s with
  | "+"%char :: s' => digits s'
  | "-"%char :: s' => Z.opp <$> digits s'
  | _ => digits s
  end.

(** [int(s)] for a string [s], base 10. *)
Definition int (s : string) : result Z :=
  match signed (strip (list_ascii_of_string s)) with
  | Some z => Ok z
  | None => Raise ValueError
  end.

(** [str(n)] for an integer [n]. *)
Definition str (n : Z) : string := pretty n.

(** A one-character string, as iterating over a [str] yields. *)
Definition chr (c : ascii) : string := String c EmptyString.

(** [s[:-1]] *)
Definition but_last (s : list ascii) : list ascii := removelast s.

(** [s[-1]] *)
Definition last_char (s : list ascii) : result string :=
  match rev s with
  | c :: _ => Ok (chr c)
  | [] => Raise IndexError
  end.

(** [sum(map(int, xs))] *)
Fixpoint sum_map_int (xs : list string) : result Z :=
  match xs with
  | [] => Ok 0
  | x :: xs' =>
      (v <- int x ;;
       r <- sum_map_int xs' ;;
       Ok (v + r))%result
  end.

(** [math.ceil(a / 10)] for an integer [a].  The quotient is a float in
    Python; for the sums that occur here (at most a few hundred) the float
    is either the exact integer quotient or strictly between two
    integers, so the ceiling is the integer one. *)
Definition ceil_div10 (a : Z) : Z := - ((- a) / 10).

End Py.

(** ** The Luhn transform shared by generation and validation *)

(** The body of [for i, digit in enumerate(s, start=1)]: odd positions are
    doubled (minus 9 above 9) and stored as [str]; even positions are stored
    as they are. *)
Fixpoint luhn_loop (i : nat) (s : list ascii) : result (list string) :=
  match s with
  | [] => Ok []
  | digit :: s' =>
      (x <- (if (i mod 2 =? 1)%nat then
               d <- Py.int (Py.chr digit) ;;
               let new_digit := d * 2 in
               let new_digit := if 9 <? new_digit then new_digit - 9 else new_digit in
               Ok (Py.str new_digit)
             else Ok (Py.chr digit)) ;;
       xs <- luhn_loop (S i) s' ;;
       Ok (x :: xs))%result
  end.

(** [is_card_number_valid(number)] *)
Definition is_card_number_valid (number : string) : result bool :=
  let chars := list_ascii_of_string number in
  (new_number <- luhn_loop 1 (Py.but_last chars) ;;
   sum_new_number <- Py.sum_map_int new_number ;;
   last <- Py.last_char chars ;;
   v <- Py.int last ;;
   let total := sum_new_number + v in
   Ok (if total mod 10 =? 0 then true else false))%result.

(** [Account.__issuer_num] *)
Definition issuer_num : string := "400000".

(** The part of [Account._get_account_num] after the random identifier has
    been drawn: [account_id] is the joined string of the nine draws. *)
Definition account_num_of_id (account_id : string) : result string :=
  let num := issuer_num +:+ account_id in
  (new_num <- luhn_loop 1 (list_ascii_of_string num) ;;
   sum_new_num <- Py.sum_map_int new_num ;;
   let checksum := Py.ceil_div10 sum_new_num in
   let checksum := checksum * 10 - sum_new_num in
   Ok (num +:+ Py.str checksum))%result.

(** ** The world: console, random generator and the table [card] *)

Record world : Type := World {
  card : gmap string (string * Z); (* number |-> (pin, balance); [number] is UNIQUE *)
  stdin : list string;             (* the lines still to be read by [input] *)
  stdout : list string;            (* what has been written, oldest first *)
  randint : nat -> Z               (* the values the next calls of [random.randint(0, 9)] return *)
}.

Definition set_card (c : gmap string (string * Z)) (w : world) : world :=
  World c (stdin w) (stdout w) (randint w).
Definition set_stdin (i : list string) (w : world) : world :=
  World (card w) i (stdout w) (randint w).
Definition set_stdout (o : list string) (w : world) : world :=
  World (card w) (stdin w) o (randint w).
Definition set_randint (r : nat -> Z) (w : world) : world :=
  World (card w) (stdin w) (stdout w) r.

Definition M (A : Type) : Type := world -> result A * world.

Definition ret {A} (a : A) : M A := fun w => (Ok a, w).
Definition raise {A} (e : exn) : M A := fun w => (Raise e, w).
Definition lift {A} (r : result A) : M A := fun w => (r, w).
Definition bind {A B} (m : M A) (k : A -> M B) : M B :=
  fun w =>
    match m w with
    | (Ok a, w') => k a w'
    | (Raise e, w') => (Raise e, w')
    end.

Declare Scope io_scope.
Delimit Scope io_scope with io.
Bind Scope io_scope with M.
Notation "x <- c1 ;; c2" := (bind c1 (fun x => c2))
  (at level 100, c1 at next level, right associativity) : io_scope.
Notation "c1 ;; c2" := (bind c1 (fun _ => c2))
  (at level 100, right associativity) : io_scope.

Definition LF : string := String "010"%char EmptyString.
Definition CR : string := String "013"%char EmptyString.

(** [print(s)] writes [s] and a line feed. *)
Definition print (s : string) : M unit :=
  fun w => (Ok tt, set_stdout (stdout w ++ [s +:+ LF]) w).

(** [input(prompt)] writes the prompt, if any, and reads one line. *)
Definition input (prompt : string) : M string :=
  fun w =>
    let w := if (prompt =? "")%string then w
             else set_stdout (stdout w ++ [prompt]) w in
    match stdin w with
    | line :: rest => (Ok line, set_stdin rest w)
    | [] => (Raise EOFError, w)
    end.

(** [random.randint(0, 9)] *)
Definition randint_0_9 : M Z :=
  fun w => (Ok (randint w 0%nat), set_randint (fun i => randint w (S i)) w).

(** [''.join([str(random.randint(0, 9)) for _ in range(n)])] *)
Fixpoint random_digits (n : nat) : M string :=
  match n with
  | O => ret ""
  | S n' =>
      (d <- randint_0_9 ;;
       rest <- random_digits n' ;;
       ret (Py.str d +:+ rest))%io
  end.

(** ** database.py
    The connection is the [world]; every statement runs in its own
    transaction, which is committed when it succeeds. *)

Module database.

(** A row of [SELECT number, pin, balance]. *)
Definition row : Type := string * string * Z.

(** [INSERT INTO card (number, pin) VALUES (?, ?)]: [balance] defaults
    to 0, and a second row with the same [number] is refused. *)
Definition add_card (number pin : string) : M unit :=
  fun w =>
    match card w !! number with
    | Some _ => (Raise IntegrityError, w)
    | None => (Ok tt, set_card (<[number := (pin, 0)]> (card w)) w)
    end.

(** [SELECT number, pin, balance FROM card WHERE number = ?], [fetchall()] *)
Definition get_card_by_number (number : string) : M (list row) :=
  fun w =>
    (Ok match card w !! number with
        | Some (pin, balance) => [(number, pin, balance)]
        | None => []
        end, w).

(** [UPDATE card SET balance = balance + ? WHERE number = ?] *)
Definition add_income (number : string) (income : Z) : M unit :=
  fun w =>
    (Ok tt,
     set_card (alter (fun r : string * Z => (r.1, r.2 + income)) number (card w)) w).

(** [DELETE FROM card WHERE number = ?] *)
Definition delete_card (number : string) : M unit :=
  fun w => (Ok tt, set_card (delete number (card w)) w).

End database.

(** ** banking.py *)

(** [do_card_number_exists(connection, number)] *)
Definition do_card_number_exists (number : string) : M bool :=
  (result <- database.get_card_by_number number ;;
   ret (match result with [] => false | _ => true end))%io.

Module Account.

(** The fields of an [Account] object; the connection is the [world]. *)
Record t : Type := mk {
  number : string;
  pin : string;
  balance : Z
}.

Definition set_balance (b : Z) (self : t) : t := mk (number self) (pin self) b.

Definition MENU : string :=
  LF +:+ "    " +:+ CR +:+ "1. Balance" +:+
  LF +:+ "    " +:+ CR +:+ "2. Add income" +:+
  LF +:+ "    " +:+ CR +:+ "3. Do transfer" +:+
  LF +:+ "    " +:+ CR +:+ "4. Close account" +:+
  LF +:+ "    " +:+ CR +:+ "5. Log out" +:+
  LF +:+ "    " +:+ CR +:+ "0. Exit".

(** [Account._get_account_num()] *)
Definition _get_account_num : M string :=
  (account_id <- random_digits 9 ;;
   lift (account_num_of_id account_id))%io.

(** [Account._get_pin()] *)
Definition _get_pin : M string := random_digits 4.

(** [Account.new()]: the arguments of [cls(...)] are evaluated from left
    to right, the number before the PIN. *)
Definition new : M t :=
  (number <- _get_account_num ;;
   pin <- _get_pin ;;
   let account := mk number pin 0 in
   print (LF +:+ "Your card has been created") ;;
   print ("Your card number:" +:+ LF +:+ number) ;;
   print ("Your card PIN:" +:+ LF +:+ pin) ;;
   ret account)%io.

(** [self.add_income(connection, income)]; returns the object as the
    method leaves it. *)
Definition add_income (self : t) (income : Z) : M t :=
  (database.add_income (number self) income ;;
   ret (set_balance (balance self + income) self))%io.

Definition msg_same_account : string :=
  "You can't transfer money to the same account!".
Definition msg_mistake : string :=
  "Probably you made a mistake in the card number. Please try again!".
Definition msg_no_card : string := "Such a card does not exist.".
Definition msg_success : string := "Success!".
Definition msg_not_enough : string := "Not enough money!".
Definition prompt_amount : string :=
  LF +:+ "Enter how much money you want to transfer:" +:+ LF.

(** [self.transfer_money(receiver)]; returns the object as the method
    leaves it. *)
Definition transfer_money (self : t) (receiver : string) : M t :=
  (if (receiver =? number self)%string then
     print msg_same_account ;; ret self
   else
     valid <- lift (is_card_number_valid receiver) ;;
     if negb valid then
       print msg_mistake ;; ret self
     else
       found <- do_card_number_exists receiver ;;
       if negb found then
         print msg_no_card ;; ret self
       else
         line <- input prompt_amount ;;
         amount <- lift (Py.int line) ;;
         if amount <=? balance self then
           database.add_income (number self) (- amount) ;;
           let self := set_balance (balance self - amount) self in
           database.add_income receiver amount ;;
           print msg_success ;;
           ret self
         else
           print msg_not_enough ;; ret self)%io.

(** [self.delete_account()] *)
Definition delete_account (self : t) : M unit :=
  database.delete_card (number self).

(** One turn of the [while True] loop of [menu]: [Some self] when the loop
    goes on with the account object in that state, [None] on [break]. *)
Definition menu_turn (self : t) : M (option t) :=
  (print MENU ;;
   action <- input "" ;;
   if (action =? "0")%string then
     print (LF +:+ "Bye!") ;; raise SystemExit
   else if (action =? "1")%string then
     print (LF +:+ "Balance: " +:+ Py.str (balance self)) ;; ret (Some self)
   else if (action =? "2")%string then
     line <- input (LF +:+ "Enter income:" +:+ LF) ;;
     income <- lift (Py.int line) ;;
     self <- add_income self income ;;
     print "Income was added!" ;; ret (Some self)
   else if (action =? "3")%string then
     print (LF +:+ "Transfer") ;;
     receiver <- input ("Enter card number:" +:+ LF) ;;
     self <- transfer_money self receiver ;;
     ret (Some self)
   else if (action =? "4")%string then
     delete_account self ;; ret (Some self)
   else if (action =? "5")%string then
     print (LF +:+ "You have successfully logged out!") ;; ret None
   else
     raise NotImplementedError)%io.

(** [self.menu()], for at most [fuel] turns. *)
Fixpoint menu (fuel : nat) (self : t) : M unit :=
  match fuel with
  | O => raise OutOfFuel
  | S fuel' =>
      (next <- menu_turn self ;;
       match next with
       | Some self' => menu fuel' self'
       | None => ret tt
       end)%io
  end.

End Account.

Module BankingSystem.

Definition MENU : string :=
  LF +:+ "    " +:+ CR +:+ "1. Create an account" +:+
  LF +:+ "    " +:+ CR +:+ "2. Log into account" +:+
  LF +:+ "    " +:+ CR +:+ "0. Exit".

Definition msg_wrong : string := LF +:+ "Wrong card number or PIN!".
Definition msg_logged_in : string := LF +:+ "You have successfully logged in!".

(** [self.create_account()] *)
Definition create_account : M unit :=
  (account <- Account.new ;;
   database.add_card (Account.number account) (Account.pin account))%io.

(** [self.login()]; [fuel] bounds the turns of the account menu it opens. *)
Definition login (fuel : nat) : M unit :=
  (print (LF +:+ "Enter your card number:") ;;
   card_num_inp <- input "" ;;
   print "Enter your PIN:" ;;
   pin_inp <- input "" ;;
   row <- database.get_card_by_number card_num_inp ;;
   match row with
   | [] => print msg_wrong
   | (card_num, pin, balance) :: _ =>
       if negb (pin_inp =? pin)%string then
         print msg_wrong
       else
         print msg_logged_in ;;
         let account := Account.mk card_num pin balance in
         Account.menu fuel account
   end)%io.

(** One turn of the [while True] loop of [BankingSystem.menu]. *)
Definition menu_turn (fuel : nat) : M unit :=
  (print MENU ;;
   action <- input "" ;;
   if (action =? "0")%string then
     print (LF +:+ "Bye!") ;; raise SystemExit
   else if (action =? "1")%string then
     create_account
   else if (action =? "2")%string then
     login fuel
   else
     raise NotImplementedError)%io.

(** [self.menu()], for at most [fuel] turns. *)
Fixpoint menu (fuel : nat) : M unit :=
  match fuel with
  | O => raise OutOfFuel
  | S fuel' => (menu_turn fuel' ;; menu fuel')%io
  end.

End BankingSystem.

(** The program: [BankingSystem(DB_FILEPATH).menu()] on the table that the
    file holds ([CREATE TABLE IF NOT EXISTS]).  Every turn of either loop
    reads a line, so one more turn than there are lines is never reached. *)
Definition main (w : world) : result unit * world :=
  BankingSystem.menu (S (length (stdin w))) w.

(** ** Vocabulary of the statements *)

(** The doubling rule on a digit value. *)
Definition dbl (d : Z) : Z := if 9 <? d * 2 then d * 2 - 9 else d * 2.

(** The sum the loop computes over digit values, positions counted from [i]. *)
Fixpoint luhn_sum (i : nat) (ds : list Z) : Z :=
  match ds with
  | [] => 0
  | d :: ds' => (if (i mod 2 =? 1)%nat then dbl d else d) + luhn_sum (S i) ds'
  end.

(** The digit values of a string of decimal digits. *)
Fixpoint digits_of (s : list ascii) : option (list Z) :=
  match s with
  | [] => Some []
  | c :: s' =>
      match Py.digit_val c, digits_of s' with
      | Some d, Some ds => Some (d :: ds)
      | _, _ => None
      end
  end.

Definition is_digit (c : ascii) : bool :=
  match Py.digit_val c with Some _ => true | None => false end.

Definition all_digits (s : string) : bool :=
  forallb is_digit (list_ascii_of_string s).

(** [s] with the character at index [i] replaced by [c]. *)
Definition replace_char (i : nat) (c : ascii) (s : string) : string :=
  string_of_list_ascii (<[i := c]> (list_ascii_of_string s)).

(** The world after [s] has been written to the console. *)
Definition written (s : string) (w : world) : world :=
  set_stdout (stdout w ++ [s]) w.

(** The persisted balance of [number], if it has a row. *)
Definition balance_of (c : gmap string (string * Z)) (number : string) : option Z :=
  snd <$> c !! number.

(** The two statements of a successful transfer, on the table. *)
Definition moved (sender receiver : string) (amount : Z)
    (c : gmap string (string * Z)) : gmap string (string * Z) :=
  alter (fun r : string * Z => (r.1, r.2 + amount)) receiver
    (alter (fun r : string * Z => (r.1, r.2 + - amount)) sender c).

(** The four guards of a transfer, in the order of the specification. *)
Inductive guard : Type :=
| SameAccount
| InvalidFormat
| NoSuchReceiver
| InsufficientFunds.

(** The first three guards let the receiver through. *)
Definition receiver_accepted (self : Account.t) (receiver : string) (w : world) : Prop :=
  receiver <> Account.number self /\
  is_card_number_valid receiver = Ok true /\
  is_Some (card w !! receiver).

(** The next line of input reads as the integer [a]. *)
Definition amount_entered (w : world) (a : Z) : Prop :=
  exists line rest, stdin w = line :: rest /\ Py.int line = Ok a.

(** Guard [g] is the first one that fails. *)
Definition guard_rejects (g : guard) (self : Account.t) (receiver : string)
    (w : world) : Prop :=
  match g with
  | SameAccount => receiver = Account.number self
  | InvalidFormat =>
      receiver <> Account.number self /\
      is_card_number_valid receiver = Ok false
  | NoSuchReceiver =>
      receiver <> Account.number self /\
      is_card_number_valid receiver = Ok true /\
      card w !! receiver = None
  | InsufficientFunds =>
      receiver_accepted self receiver w /\
      exists a, amount_entered w a /\ Account.balance self < a
  end.

Definition guard_msg (g : guard) : string :=
  match g with
  | SameAccount => Account.msg_same_account
  | InvalidFormat => Account.msg_mistake
  | NoSuchReceiver => Account.msg_no_card
  | InsufficientFunds => Account.msg_not_enough
  end.

(** A row with this number exists and its stored PIN is this PIN. *)
Definition authenticates (c : gmap string (string * Z)) (number pin : string) : Prop :=
  exists balance, c !! number = Some (pin, balance).

(** The world once [login] has asked for and read the two lines. *)
Definition login_prompted (w : world) (rest : list string) : world :=
  World (card w) rest
        (stdout w ++ [LF +:+ "Enter your card number:" +:+ LF; "Enter your PIN:" +:+ LF])
        (randint w).

(** Every persisted balance is at least 0. *)
Definition balances_nonneg (c : gmap string (string * Z)) : Prop :=
  map_Forall (fun _ (r : string * Z) => 0 <= r.2) c.

(** No line reads as a negative integer. *)
Definition nonneg_line (line : string) : Prop :=
  forall a, Py.int line = Ok a -> 0 <= a.

Definition no_negative_input (w : world) : Prop := Forall nonneg_line (stdin w).

(** The cached balance of the session is the persisted one, as long as the
    row of the session is there. *)
Definition cache_agrees (self : Account.t) (c : gmap string (string * Z)) : Prop :=
  forall p b, c !! Account.number self = Some (p, b) -> b = Account.balance self.

(** [hoare P m Q E]: from a world in [P], [m] ends in [Q] when it returns
    and in [E] when it raises. *)
Definition hoare {A} (P : world -> Prop) (m : M A) (Q : A -> world -> Prop)
    (E : world -> Prop) : Prop :=
  forall w, P w ->
    match m w with
    | (Ok a, w') => Q a w'
    | (Raise _, w') => E w'
    end.

(** The table satisfies [T] and the input has no negative number. *)
Definition inv (T : gmap string (string * Z) -> Prop) (w : world) : Prop :=
  T (card w) /\ no_negative_input w.

(** The invariant of a session. *)
Definition session_inv (self : Account.t) (c : gmap string (string * Z)) : Prop :=
  balances_nonneg c /\ cache_agrees self c.

(** The contract of [random.randint(0, 9)]. *)
Definition randint_ok (w : world) : Prop := forall i, 0 <= randint w i <= 9.

(** What the digit value [d] contributes to the sum at position [k]. *)
Definition weight (k : nat) (d : Z) : Z := if (k mod 2 =? 1)%nat then dbl d else d.

(** The Luhn check as it is usually stated, on digit values: starting from
    the rightmost digit, which is kept, every second digit is doubled. *)
Definition luhn_standard (ds : list Z) : bool :=
  luhn_sum 0 (rev ds) mod 10 =? 0.

(** [s] with the characters at the indexes [i] and [i + 1] exchanged. *)
Definition swap_adjacent (i : nat) (s : string) : string :=
  let chars := list_ascii_of_string s in
  match chars !! i, chars !! S i with
  | Some a, Some b => string_of_list_ascii (<[i := b]> (<[S i := a]> chars))
  | _, _ => s
  end.

(** The two digits are 0 and 9, in either order. *)
Definition zero_nine (a b : ascii) : bool :=
  (Ascii.eqb a "0" && Ascii.eqb b "9") || (Ascii.eqb a "9" && Ascii.eqb b "0").

(** What [Account.new] writes for the number and the PIN it has drawn. *)
Definition announced (number pin : string) : list string :=
  [(LF +:+ "Your card has been created") +:+ LF;
   ("Your card number:" +:+ LF +:+ number) +:+ LF;
   ("Your card PIN:" +:+ LF +:+ pin) +:+ LF].

(** The world once [Account.new] has drawn and announced them. *)
Definition world_announced (w : world) (number pin : string) : world :=
  World (card w) (stdin w) (stdout w ++ announced number pin)
        (fun i => randint w (13 + i)%nat).

(** The sum of all persisted balances. *)
Definition total_balance (c : gmap string (string * Z)) : Z :=
  map_fold (fun _ (r : string * Z) acc => r.2 + acc) 0 c.

(** A stored row as [create_account] writes it: a valid 16-digit number
    that starts with the issuer number, and a PIN of four digits. *)
Definition row_well_formed (number pin : string) : Prop :=
  String.length number = 16%nat /\
  String.prefix issuer_num number = true /\
  all_digits number = true /\
  is_card_number_valid number = Ok true /\
  String.length pin = 4%nat /\
  all_digits pin = true.

Definition table_well_formed (c : gmap string (string * Z)) : Prop :=
  forall number pin balance, c !! number = Some (pin, balance) ->
    row_well_formed number pin.

(** The rows of the accounts other than [me] exist in [c] exactly as in
    [c0], with the PIN they have in [c0]. *)
Definition others_kept (c0 : gmap string (string * Z)) (me : string)
    (c : gmap string (string * Z)) : Prop :=
  forall n, n <> me -> fst <$> c !! n = fst <$> c0 !! n.

(** The row of [me] is as in [c0] up to its balance, or is gone. *)
Definition own_kept_or_gone (c0 : gmap string (string * Z)) (me : string)
    (c : gmap string (string * Z)) : Prop :=
  fst <$> c !! me = fst <$> c0 !! me \/ c !! me = None.

(** A property of the table alone, as a property of the world. *)
Definition on_card (T : gmap string (string * Z) -> Prop) (w : world) : Prop :=
  T (card w).

(** A property of the table together with one of the draws to come. *)
Definition keeps (T : gmap string (string * Z) -> Prop) (P : (nat -> Z) -> Prop)
    (w : world) : Prop :=
  T (card w) /\ P (randint w).

(** The draws to come are all in 0..9. *)
Definition draws_ok (r : nat -> Z) : Prop := forall i, 0 <= r i <= 9.

(** ** Worlds used in the examples *)

Definition sender_ex : string := "4000000123456784".
Definition receiver_ex : string := "4000008449433403".

(** Sender with 200, receiver with 0, and the line [amount] waiting on the
    console. *)
Definition world_ex (amount : string) : world :=
  World (<[sender_ex := ("9012", 200)]> (<[receiver_ex := ("2345", 0)]> ∅))
        [amount] [] (fun _ => 0).

Definition self_ex : Account.t := Account.mk sender_ex "9012" 200.

(** Two accounts are created; the first logs in and enters [amount] as the
    amount of a transfer to the second; then the program is left. *)
Definition run_ex (amount : string) : world :=
  World ∅ ["1"; "1"; "2"; sender_ex; "9012"; "3"; "4000003456789011"; amount; "0"] []
        (fun i => Z.of_nat (i mod 10)).

(** * Properties *)

#[local] Arguments Nat.modulo : simpl never.
#[local] Arguments Z.mul : simpl never.
#[local] Arguments Z.add : simpl never.
#[local] Arguments Z.sub : simpl never.

(** ** Python primitives *)

Lemma digit_val_range c d : Py.digit_val c = Some d -> 0 <= d <= 9.
Proof.
  unfold Py.digit_val.
  destruct (_ && _)%bool eqn:E; [|discriminate].
  intros [= <-]. apply andb_prop in E as [E1 E2].
  apply Nat.leb_le in E1, E2. lia.
Qed.

Lemma int_chr c :
  Py.int (Py.chr c) =
  match Py.digit_val c with Some d => Ok d | None => Raise ValueError end.
Proof. destruct c as [[] [] [] [] [] [] [] []]; reflexivity. Qed.

Lemma small_cases (P : Z -> Prop) :
  P 0 -> P 1 -> P 2 -> P 3 -> P 4 -> P 5 -> P 6 -> P 7 -> P 8 -> P 9 ->
  forall v, 0 <= v <= 9 -> P v.
Proof.
  intros H0 H1 H2 H3 H4 H5 H6 H7 H8 H9 v Hv.
  assert (v = 0 \/ v = 1 \/ v = 2 \/ v = 3 \/ v = 4 \/ v = 5 \/ v = 6 \/
          v = 7 \/ v = 8 \/ v = 9) as Hc by lia.
  repeat (destruct Hc as [-> | Hc]; [assumption|]). subst. assumption.
Qed.

Lemma str_digit v :
  0 <= v <= 9 ->
  exists c, Py.str v = Py.chr c /\ Py.digit_val c = Some v.
Proof.
  revert v. apply small_cases; (eexists; split; [vm_compute; reflexivity | reflexivity]).
Qed.

Lemma int_str_digit v : 0 <= v <= 9 -> Py.int (Py.str v) = Ok v.
Proof.
  intros Hv. destruct (str_digit v Hv) as (c & -> & Hc).
  rewrite int_chr, Hc. reflexivity.
Qed.

Lemma dbl_range d : 0 <= d <= 9 -> 0 <= dbl d <= 9.
Proof. intros Hd. unfold dbl. destruct (9 <? d * 2) eqn:E; lia. Qed.

Lemma dbl_diff d d' :
  0 <= d <= 9 -> 0 <= d' <= 9 -> d <> d' ->
  dbl d' - dbl d <> 0 /\ -9 <= dbl d' - dbl d <= 9.
Proof.
  intros Hd Hd' Hne. unfold dbl.
  destruct (9 <? d * 2) eqn:E; destruct (9 <? d' * 2) eqn:E'; lia.
Qed.

Lemma ceil_div10_spec a :
  let c := Py.ceil_div10 a * 10 - a in 0 <= c <= 9 /\ (a + c) mod 10 = 0.
Proof.
  unfold Py.ceil_div10. cbv zeta.
  pose proof (Z.div_mod (- a) 10 ltac:(lia)) as Hdm.
  pose proof (Z.mod_pos_bound (- a) 10 ltac:(lia)) as Hb.
  split; [lia|].
  replace (a + (- (- a / 10) * 10 - a)) with ((- (- a / 10)) * 10) by lia.
  apply Z_mod_mult.
Qed.

(** ** The Luhn loop on strings of digits *)

Lemma digits_of_app s1 s2 ds1 ds2 :
  digits_of s1 = Some ds1 -> digits_of s2 = Some ds2 ->
  digits_of (s1 ++ s2) = Some (ds1 ++ ds2).
Proof.
  revert ds1. induction s1 as [|c s1 IH]; intros ds1; simpl.
  - intros [= <-] H. exact H.
  - destruct (Py.digit_val c) as [d|]; [|discriminate].
    destruct (digits_of s1) as [ds|]; [|discriminate].
    intros [= <-] H2. rewrite (IH ds eq_refl H2). reflexivity.
Qed.

Lemma digits_of_app_inv s1 s2 ds :
  digits_of (s1 ++ s2) = Some ds ->
  exists ds1 ds2, digits_of s1 = Some ds1 /\ digits_of s2 = Some ds2 /\ ds = ds1 ++ ds2.
Proof.
  revert ds. induction s1 as [|c s1 IH]; intros ds; simpl.
  - intros H. exists [], ds. auto.
  - destruct (Py.digit_val c) as [d|]; [|discriminate].
    destruct (digits_of (s1 ++ s2)) as [ds'|] eqn:E; [|discriminate].
    intros [= <-]. destruct (IH ds' eq_refl) as (ds1 & ds2 & -> & H2 & ->).
    exists (d :: ds1), ds2. auto.
Qed.

Lemma digits_of_forallb s :
  forallb is_digit s = true <-> exists ds, digits_of s = Some ds.
Proof.
  induction s as [|c s IH]; simpl.
  - split; eauto.
  - unfold is_digit at 1. destruct (Py.digit_val c) as [d|]; simpl.
    + rewrite IH. split; intros [ds H].
      * rewrite H. eauto.
      * destruct (digits_of s); [eauto | discriminate].
    + split; [discriminate | intros [ds H]; discriminate].
Qed.

Lemma digits_of_length s ds : digits_of s = Some ds -> length ds = length s.
Proof.
  revert ds. induction s as [|c s IH]; intros ds; simpl.
  - intros [= <-]. reflexivity.
  - destruct (Py.digit_val c); [|discriminate].
    destruct (digits_of s) as [ds'|]; [|discriminate].
    intros [= <-]. simpl. f_equal. auto.
Qed.

Lemma digits_of_range s ds : digits_of s = Some ds -> Forall (fun d => 0 <= d <= 9) ds.
Proof.
  revert ds. induction s as [|c s IH]; intros ds; simpl.
  - intros [= <-]. constructor.
  - destruct (Py.digit_val c) as [d|] eqn:Ec; [|discriminate].
    destruct (digits_of s) as [ds'|]; [|discriminate].
    intros [= <-]. constructor; eauto using digit_val_range.
Qed.

(** On digits the loop and the sum succeed, with the arithmetic value. *)
Lemma luhn_loop_digits s : forall i ds,
  digits_of s = Some ds ->
  exists xs, luhn_loop i s = Ok xs /\ Py.sum_map_int xs = Ok (luhn_sum i ds).
Proof.
  induction s as [|c s IH]; intros i ds; simpl.
  - intros [= <-]. eexists; split; reflexivity.
  - destruct (Py.digit_val c) as [d|] eqn:Ec; [|discriminate].
    destruct (digits_of s) as [ds'|] eqn:Es; [|discriminate].
    intros [= <-]. destruct (IH (S i) ds' eq_refl) as (xs & Hl & Hs).
    rewrite Hl. pose proof (digit_val_range _ _ Ec) as Hd.
    cbn [luhn_sum]. destruct (i mod 2 =? 1)%nat; simpl.
    + rewrite int_chr, Ec. simpl. eexists; split; [reflexivity|].
      simpl. fold (dbl d). rewrite (int_str_digit (dbl d) (dbl_range d Hd)).
      rewrite Hs. reflexivity.
    + eexists; split; [reflexivity|]. simpl. rewrite int_chr, Ec.
      rewrite Hs. reflexivity.
Qed.

(** The loop and the sum raise nothing but [ValueError]. *)
Lemma int_raises x e : Py.int x = Raise e -> e = ValueError.
Proof. unfold Py.int. destruct (Py.signed _); [discriminate | congruence]. Qed.

Lemma luhn_loop_raises s : forall i e, luhn_loop i s = Raise e -> e = ValueError.
Proof.
  induction s as [|c s IH]; intros i e; simpl; [discriminate|].
  destruct (i mod 2 =? 1)%nat; simpl.
  - destruct (Py.int (Py.chr c)) eqn:Ei; simpl.
    + destruct (luhn_loop (S i) s) eqn:El; simpl; [discriminate|].
      intros [= <-]. eauto.
    + intros [= <-]. eauto using int_raises.
  - destruct (luhn_loop (S i) s) eqn:El; simpl; [discriminate|].
    intros [= <-]. eauto.
Qed.

Lemma sum_map_int_raises xs e : Py.sum_map_int xs = Raise e -> e = ValueError.
Proof.
  induction xs as [|x xs IH]; simpl; [discriminate|].
  destruct (Py.int x) eqn:Ei; simpl.
  - destruct (Py.sum_map_int xs); simpl; [discriminate|].
    intros [= <-]. auto.
  - intros [= <-]. eauto using int_raises.
Qed.

(** When the loop and the sum both succeed, every character was a digit. *)
Lemma luhn_loop_ok_digits s : forall i xs v,
  luhn_loop i s = Ok xs -> Py.sum_map_int xs = Ok v ->
  exists ds, digits_of s = Some ds.
Proof.
  induction s as [|c s IH]; intros i xs v; simpl; [eauto|].
  destruct (luhn_loop (S i) s) as [xs'|] eqn:El.
  2:{ destruct (i mod 2 =? 1)%nat; simpl; [|discriminate].
      destruct (Py.int (Py.chr c)); discriminate. }
  assert (forall x, Py.sum_map_int (x :: xs') = Ok v ->
                    exists ds', digits_of s = Some ds') as Htail.
  { intros x. simpl. destruct (Py.int x); simpl; [|discriminate].
    destruct (Py.sum_map_int xs') eqn:Es; simpl; [|discriminate].
    intros _. eauto. }
  destruct (i mod 2 =? 1)%nat; simpl.
  - rewrite int_chr. destruct (Py.digit_val c) as [d|]; simpl; [|discriminate].
    intros [= <-] Hs. destruct (Htail _ Hs) as [ds' ->]. eauto.
  - intros [= <-] Hs. destruct (Htail _ Hs) as [ds' ->].
    simpl in Hs. rewrite int_chr in Hs.
    destruct (Py.digit_val c) as [d|]; [eauto | discriminate].
Qed.

(** ** Validation, by cases on its argument *)

Lemma list_ascii_of_string_app s1 s2 :
  list_ascii_of_string (s1 +:+ s2) = list_ascii_of_string s1 ++ list_ascii_of_string s2.
Proof. induction s1 as [|c s1 IH]; simpl; [reflexivity | rewrite IH; reflexivity]. Qed.

Lemma length_list_ascii s : length (list_ascii_of_string s) = String.length s.
Proof. induction s as [|c s IH]; simpl; [reflexivity | rewrite IH; reflexivity]. Qed.

(** A number whose characters are [body ++ [c]], all of them digits. *)
Lemma valid_digits number body c ds d :
  list_ascii_of_string number = body ++ [c] ->
  digits_of body = Some ds -> Py.digit_val c = Some d ->
  is_card_number_valid number = Ok ((luhn_sum 1 ds + d) mod 10 =? 0).
Proof.
  intros Hn Hb Hc. unfold is_card_number_valid, Py.but_last, Py.last_char.
  rewrite Hn, removelast_last, rev_unit.
  destruct (luhn_loop_digits body 1 ds Hb) as (xs & -> & Hs).
  cbn [rbind]. rewrite Hs. cbn [rbind]. rewrite int_chr, Hc. cbn [rbind].
  destruct (_ =? 0); reflexivity.
Qed.

Lemma valid_empty_raises : is_card_number_valid "" = Raise IndexError.
Proof. reflexivity. Qed.

Lemma valid_nondigit_raises number :
  number <> "" -> all_digits number = false ->
  is_card_number_valid number = Raise ValueError.
Proof.
  intros Hne Hnd.
  destruct (is_card_number_valid number) as [b|e] eqn:Ev.
  - exfalso. unfold is_card_number_valid, Py.but_last, Py.last_char in Ev.
    destruct (exists_last (l := list_ascii_of_string number)) as (body & c & Hn).
    { intros H. apply Hne. rewrite <- (string_of_list_ascii_of_string number), H. reflexivity. }
    rewrite Hn, removelast_last, rev_unit in Ev.
    destruct (luhn_loop 1 body) as [xs|] eqn:El; [|discriminate]. cbn [rbind] in Ev.
    destruct (Py.sum_map_int xs) as [v|] eqn:Es; [|discriminate]. cbn [rbind] in Ev.
    rewrite int_chr in Ev.
    destruct (Py.digit_val c) as [d|] eqn:Ec; [|discriminate].
    destruct (luhn_loop_ok_digits _ _ _ _ El Es) as [ds Hds].
    assert (all_digits number = true) as Hall; [|congruence].
    unfold all_digits. rewrite Hn. apply digits_of_forallb.
    exists (ds ++ [d]). apply digits_of_app; [assumption|]. simpl. rewrite Ec. reflexivity.
  - f_equal. unfold is_card_number_valid in Ev.
    destruct (luhn_loop 1 _) as [xs|e1] eqn:El; cbn [rbind] in Ev.
    2:{ injection Ev as <-. eauto using luhn_loop_raises. }
    destruct (Py.sum_map_int xs) as [v|e2] eqn:Es; cbn [rbind] in Ev.
    2:{ injection Ev as <-. eauto using sum_map_int_raises. }
    unfold Py.last_char in Ev.
    destruct (rev (list_ascii_of_string number)) as [|c r] eqn:Er.
    { exfalso. apply Hne. rewrite <- (string_of_list_ascii_of_string number).
      rewrite <- (rev_involutive (list_ascii_of_string number)), Er. reflexivity. }
    cbn [rbind] in Ev. destruct (Py.int (Py.chr c)) eqn:Ei; cbn [rbind] in Ev; [discriminate|].
    injection Ev as <-. eauto using int_raises.
Qed.

Lemma valid_digits_returns number :
  number <> "" -> all_digits number = true ->
  exists b, is_card_number_valid number = Ok b.
Proof.
  intros Hne Hall.
  destruct (exists_last (l := list_ascii_of_string number)) as (body & c & Hn).
  { intros H. apply Hne. rewrite <- (string_of_list_ascii_of_string number), H. reflexivity. }
  unfold all_digits in Hall. rewrite Hn in Hall.
  apply digits_of_forallb in Hall as [ds Hds].
  apply digits_of_app_inv in Hds as (ds1 & ds2 & H1 & H2 & ->).
  simpl in H2. destruct (Py.digit_val c) as [d|] eqn:Ec; [|discriminate].
  eexists. eapply valid_digits; eauto.
Qed.




(** ** Generation *)

Lemma random_digits_ok n : forall w,
  randint_ok w ->
  exists s ds w',
    random_digits n w = (Ok s, w') /\
    digits_of (list_ascii_of_string s) = Some ds /\ length ds = n /\
    randint_ok w' /\ card w' = card w /\ stdin w' = stdin w /\ stdout w' = stdout w.
Proof.
  induction n as [|n IH]; intros w Hw.
  - exists "", [], w. split_and!; auto.
  - cbn [random_digits]. unfold bind at 1, randint_0_9 at 1.
    set (w1 := set_randint _ w).
    assert (randint_ok w1) as Hw1 by (intros i; apply Hw).
    destruct (IH w1 Hw1) as (s & ds & w' & Hr & Hds & Hlen & Hok & Hc & Hi & Ho).
    unfold bind. rewrite Hr. unfold ret.
    destruct (str_digit (randint w 0%nat) (Hw 0%nat)) as (c & Hstr & Hc0).
    exists (Py.str (randint w 0%nat) +:+ s), (randint w 0%nat :: ds), w'.
    split; [reflexivity|].
    rewrite Hstr, list_ascii_of_string_app. unfold Py.chr.
    cbn [list_ascii_of_string app digits_of].
    rewrite Hc0, Hds.
    split_and!; auto. simpl. congruence.
Qed.

Lemma account_num_of_id_valid account_id ds :
  digits_of (list_ascii_of_string account_id) = Some ds ->
  exists n, account_num_of_id account_id = Ok n /\
            is_card_number_valid n = Ok true /\
            String.length n = (7 + length ds)%nat.
Proof.
  intros Hds. unfold account_num_of_id.
  set (num := issuer_num +:+ account_id).
  assert (digits_of (list_ascii_of_string num) = Some ([4;0;0;0;0;0] ++ ds)) as Hnum.
  { unfold num. rewrite list_ascii_of_string_app. apply digits_of_app; [reflexivity | assumption]. }
  destruct (luhn_loop_digits _ 1 _ Hnum) as (xs & -> & Hs).
  cbn [rbind]. rewrite Hs. cbn [rbind].
  set (S0 := luhn_sum 1 ([4;0;0;0;0;0] ++ ds)) in *.
  destruct (ceil_div10_spec S0) as [Hr Hm]. cbv zeta in Hr, Hm.
  destruct (str_digit _ Hr) as (c & Hstr & Hc).
  eexists. split; [reflexivity|]. rewrite Hstr. split.
  - erewrite valid_digits; [| | exact Hnum | exact Hc].
    + fold S0. rewrite Hm. reflexivity.
    + rewrite list_ascii_of_string_app. reflexivity.
  - rewrite <- length_list_ascii, list_ascii_of_string_app, length_app.
    rewrite <- (digits_of_length _ _ Hnum), length_app. simpl. lia.
Qed.

(** C1: whatever the nine draws of [random.randint(0, 9)] are, the number
    [Account._get_account_num] returns has 16 characters and passes
    [is_card_number_valid]. *)
Theorem generated_number_is_valid (w : world) :
  randint_ok w ->
  exists n w',
    Account._get_account_num w = (Ok n, w') /\
    String.length n = 16%nat /\
    is_card_number_valid n = Ok true.
Proof.
  intros Hw. unfold Account._get_account_num, bind, lift.
  destruct (random_digits_ok 9 w Hw) as (s & ds & w' & -> & Hds & Hlen & _).
  destruct (account_num_of_id_valid s ds Hds) as (n & -> & Hv & Hl).
  exists n, w'. rewrite Hl, Hlen. auto.
Qed.

Lemma generated_number_is_valid_witness :
  exists n w',
    Account._get_account_num (World ∅ [] [] (fun _ => 7)) = (Ok n, w') /\
    String.length n = 16%nat /\
    is_card_number_valid n = Ok true.
Proof.
  apply (generated_number_is_valid (World ∅ [] [] (fun _ => 7))).
  intros i. simpl. lia.
Defined.

(** ** Changing one digit *)

Lemma weight_diff k d d' :
  0 <= d <= 9 -> 0 <= d' <= 9 -> d <> d' ->
  weight k d' - weight k d <> 0 /\ -9 <= weight k d' - weight k d <= 9.
Proof.
  intros Hd Hd' Hne. unfold weight. destruct (k mod 2 =? 1)%nat.
  - apply dbl_diff; assumption.
  - lia.
Qed.

Lemma luhn_sum_insert ds : forall j i d d',
  ds !! i = Some d ->
  luhn_sum j (<[i := d']> ds) = luhn_sum j ds + (weight (j + i) d' - weight (j + i) d).
Proof.
  induction ds as [|x ds IH]; intros j i d d' Hi; [discriminate|].
  destruct i as [|i]; simpl in Hi |- *.
  - injection Hi as ->. rewrite Nat.add_0_r. unfold weight. lia.
  - rewrite (IH (S j) i d d' Hi). replace (S j + i)%nat with (j + S i)%nat by lia. lia.
Qed.

Lemma digits_of_lookup s : forall ds i c,
  digits_of s = Some ds -> s !! i = Some c ->
  exists d, ds !! i = Some d /\ Py.digit_val c = Some d.
Proof.
  induction s as [|x s IH]; intros ds i c; simpl; [discriminate|].
  destruct (Py.digit_val x) as [dx|] eqn:Ex; [|discriminate].
  destruct (digits_of s) as [ds'|]; [|discriminate].
  intros [= <-]. destruct i as [|i]; simpl.
  - intros [= <-]. eauto.
  - intros Hi. eauto.
Qed.

Lemma digits_of_insert s : forall ds i c d,
  digits_of s = Some ds -> Py.digit_val c = Some d ->
  digits_of (<[i := c]> s) = Some (<[i := d]> ds).
Proof.
  induction s as [|x s IH]; intros ds i c d; simpl.
  - intros [= <-] _. reflexivity.
  - destruct (Py.digit_val x) as [dx|] eqn:Ex; [|discriminate].
    destruct (digits_of s) as [ds'|] eqn:Es; [|discriminate].
    intros [= <-] Hc. destruct i as [|i]; simpl.
    + rewrite Hc, Es. reflexivity.
    + rewrite Ex, (IH ds' i c d eq_refl Hc). reflexivity.
Qed.

Lemma digit_val_inj c c' d :
  Py.digit_val c = Some d -> Py.digit_val c' = Some d -> c = c'.
Proof.
  unfold Py.digit_val.
  destruct (_ && _)%bool; [|discriminate].
  destruct (_ && _)%bool; [|discriminate].
  intros [= H1] [= H2].
  rewrite <- (ascii_nat_embedding c), <- (ascii_nat_embedding c').
  f_equal. lia.
Qed.

Lemma mod10_shift t delta :
  t mod 10 = 0 -> delta <> 0 -> -9 <= delta <= 9 -> (t + delta) mod 10 <> 0.
Proof.
  intros Ht Hd Hr Hm.
  apply Z.mod_divide in Ht; [|lia]. apply Z.mod_divide in Hm; [|lia].
  destruct Ht as [a Ha]. destruct Hm as [b Hb]. lia.
Qed.

(** A valid string of digits, of any length, is invalid once one of its
    digits is replaced by a different digit. *)
Lemma mutation_invalid (n : string) (i : nat) (c c' : ascii) :
  all_digits n = true ->
  is_card_number_valid n = Ok true ->
  list_ascii_of_string n !! i = Some c ->
  is_digit c' = true -> c' <> c ->
  is_card_number_valid (replace_char i c' n) = Ok false.
Proof.
  intros Hall Hv Hi Hc' Hne.
  destruct (exists_last (l := list_ascii_of_string n)) as (body & z & Hn).
  { intros H. rewrite H in Hi. discriminate. }
  unfold all_digits in Hall. rewrite Hn in Hall, Hi.
  apply digits_of_forallb in Hall as [ds Hds].
  apply digits_of_app_inv in Hds as (dsb & dsz & Hb & Hz & ->).
  simpl in Hz. destruct (Py.digit_val z) as [dz|] eqn:Ez; [|discriminate]. clear Hz dsz.
  unfold is_digit in Hc'. destruct (Py.digit_val c') as [d'|] eqn:Ec'; [|discriminate].
  pose proof (digit_val_range _ _ Ec') as Hd'.
  rewrite (valid_digits n body z dsb dz Hn Hb Ez) in Hv.
  injection Hv as Hv. apply Z.eqb_eq in Hv.
  assert (forall t, t mod 10 <> 0 -> Ok (t mod 10 =? 0) = Ok false) as Hfalse.
  { intros t Ht. destruct (Z.eqb_spec (t mod 10) 0); [contradiction | reflexivity]. }
  destruct (decide (i < length body)%nat) as [Hlt|Hge].
  - (* a digit of the first part *)
    rewrite lookup_app_l in Hi by assumption.
    destruct (digits_of_lookup _ _ _ _ Hb Hi) as (d & Hdi & Hcd).
    pose proof (digit_val_range _ _ Hcd) as Hd.
    assert (d <> d') as Hdd.
    { intros ->. apply Hne. eapply digit_val_inj; eassumption. }
    erewrite valid_digits with (body := <[i := c']> body) (c := z);
      [| | eapply digits_of_insert; eassumption | exact Ez].
    2:{ unfold replace_char. rewrite list_ascii_of_string_of_list_ascii, Hn.
        apply insert_app_l. assumption. }
    rewrite (luhn_sum_insert dsb 1 i d d' Hdi).
    destruct (weight_diff (1 + i) d d' Hd Hd' Hdd) as [Hnz Hr].
    apply Hfalse.
    replace (luhn_sum 1 dsb + (weight (1 + i) d' - weight (1 + i) d) + dz)
      with (luhn_sum 1 dsb + dz + (weight (1 + i) d' - weight (1 + i) d)) by lia.
    apply mod10_shift; assumption.
  - (* the last digit *)
    assert (i = length body) as ->.
    { apply lookup_lt_Some in Hi. rewrite length_app in Hi. simpl in Hi. lia. }
    rewrite list_lookup_middle in Hi by reflexivity. injection Hi as <-.
    pose proof (digit_val_range _ _ Ez) as Hdz.
    assert (dz <> d') as Hdd.
    { intros ->. apply Hne. eapply digit_val_inj; eassumption. }
    erewrite valid_digits with (body := body) (c := c'); [| | exact Hb | exact Ec'].
    2:{ unfold replace_char. rewrite list_ascii_of_string_of_list_ascii, Hn.
        rewrite insert_app_r_alt by lia. rewrite Nat.sub_diag. reflexivity. }
    apply Hfalse.
    replace (luhn_sum 1 dsb + d') with (luhn_sum 1 dsb + dz + (d' - dz)) by lia.
    apply mod10_shift; [assumption | lia | lia].
Qed.

(** C9: in a valid 16-digit number, replacing any one digit by a different
    digit gives a number that [is_card_number_valid] rejects; no such
    replacement keeps the checksum. *)
Theorem single_digit_mutation_invalidates (n : string) (i : nat) (c' : ascii) :
  String.length n = 16%nat ->
  all_digits n = true ->
  is_card_number_valid n = Ok true ->
  (i < 16)%nat ->
  is_digit c' = true ->
  list_ascii_of_string n !! i <> Some c' ->
  is_card_number_valid (replace_char i c' n) = Ok false.
Proof.
  intros Hlen Hall Hv Hi Hc' Hne.
  destruct (list_ascii_of_string n !! i) as [c|] eqn:Ei.
  - apply (mutation_invalid n i c c'); try assumption. congruence.
  - apply lookup_ge_None in Ei. rewrite length_list_ascii in Ei. lia.
Qed.

Lemma single_digit_mutation_invalidates_witness :
  is_card_number_valid (replace_char 7 "3" "4000008449433403") = Ok false.
Proof.
  apply (single_digit_mutation_invalidates "4000008449433403" 7 "3");
    [reflexivity | reflexivity | reflexivity | lia | reflexivity | discriminate].
Defined.

(** ** Console *)

Lemma print_written s w : print s w = (Ok tt, written (s +:+ LF) w).
Proof. reflexivity. Qed.

Lemma input_line w line rest :
  stdin w = line :: rest -> input "" w = (Ok line, set_stdin rest w).
Proof. intros H. unfold input. simpl. rewrite H. reflexivity. Qed.

Lemma input_prompt_line p w line rest :
  (p =? "")%string = false -> stdin w = line :: rest ->
  input p w = (Ok line, set_stdin rest (written p w)).
Proof. intros Hp H. unfold input. rewrite Hp. simpl. rewrite H. reflexivity. Qed.

Lemma input_eof p w : stdin w = [] -> exists w', input p w = (Raise EOFError, w') /\ card w' = card w.
Proof.
  intros H. unfold input. destruct (p =? "")%string; simpl; rewrite H; eauto.
Qed.

(** ** Transfer *)

Lemma receiver_accepted_found self receiver w :
  receiver_accepted self receiver w ->
  do_card_number_exists receiver w = (Ok true, w).
Proof.
  intros (_ & _ & [[p b] Hr]).
  unfold do_card_number_exists, bind, database.get_card_by_number, ret.
  rewrite Hr. reflexivity.
Qed.

(** Once the receiver is accepted, the amount is read and compared with the
    cached balance, and nothing else decides the outcome. *)
Lemma transfer_money_amount self receiver w line rest a :
  receiver_accepted self receiver w ->
  stdin w = line :: rest -> Py.int line = Ok a ->
  Account.transfer_money self receiver w =
  let w1 := set_stdin rest (written Account.prompt_amount w) in
  if a <=? Account.balance self then
    (Ok (Account.set_balance (Account.balance self - a) self),
     written (Account.msg_success +:+ LF)
       (set_card (moved (Account.number self) receiver a (card w1)) w1))
  else
    (Ok self, written (Account.msg_not_enough +:+ LF) w1).
Proof.
  intros Hacc Hin Hint. pose proof Hacc as (Hne & Hv & Hex).
  unfold Account.transfer_money.
  apply String.eqb_neq in Hne. rewrite Hne.
  unfold bind at 1, lift at 1. rewrite Hv. cbn [negb].
  unfold bind at 1. rewrite (receiver_accepted_found _ _ _ Hacc). cbn [negb].
  unfold bind at 1.
  rewrite (input_prompt_line Account.prompt_amount w line rest eq_refl Hin).
  unfold bind at 1, lift at 1. rewrite Hint. cbv zeta.
  destruct (a <=? Account.balance self); reflexivity.
Qed.

Lemma balance_of_moved_sender sender receiver a c :
  receiver <> sender ->
  balance_of (moved sender receiver a c) sender = (fun b => b - a) <$> balance_of c sender.
Proof.
  intros Hne. unfold balance_of, moved.
  rewrite lookup_alter_ne by assumption. rewrite lookup_alter_eq.
  destruct (c !! sender) as [[p b]|]; simpl; [f_equal; lia | reflexivity].
Qed.

Lemma balance_of_moved_receiver sender receiver a c :
  receiver <> sender ->
  balance_of (moved sender receiver a c) receiver = (fun b => b + a) <$> balance_of c receiver.
Proof.
  intros Hne. unfold balance_of, moved.
  rewrite lookup_alter_eq. rewrite lookup_alter_ne by congruence.
  destruct (c !! receiver) as [[p b]|]; reflexivity.
Qed.

Lemma moved_other sender receiver a c n :
  n <> sender -> n <> receiver -> moved sender receiver a c !! n = c !! n.
Proof.
  intros H1 H2. unfold moved.
  rewrite lookup_alter_ne by congruence. rewrite lookup_alter_ne by congruence.
  reflexivity.
Qed.


Lemma receiver_ex_accepted amount : receiver_accepted self_ex receiver_ex (world_ex amount).
Proof.
  split_and!; [discriminate | vm_compute; reflexivity |].
  exists ("2345", 0). reflexivity.
Qed.


(** What [transfer_money] does when guard [g] is the first to fail. *)
Lemma transfer_money_rejects self receiver w g :
  guard_rejects g self receiver w ->
  Account.transfer_money self receiver w =
  (Ok self,
   match g with
   | InsufficientFunds =>
       written (Account.msg_not_enough +:+ LF)
         (set_stdin (tail (stdin w)) (written Account.prompt_amount w))
   | _ => written (guard_msg g +:+ LF) w
   end).
Proof.
  destruct g; cbn [guard_rejects guard_msg].
  - intros ->. unfold Account.transfer_money. rewrite String.eqb_refl. reflexivity.
  - intros [Hne Hv]. unfold Account.transfer_money.
    apply String.eqb_neq in Hne. rewrite Hne.
    unfold bind at 1, lift at 1. rewrite Hv. reflexivity.
  - intros (Hne & Hv & Hnone). unfold Account.transfer_money.
    apply String.eqb_neq in Hne. rewrite Hne.
    unfold bind at 1, lift at 1. rewrite Hv. cbn [negb].
    unfold bind at 1, do_card_number_exists, bind at 1, database.get_card_by_number, ret at 1.
    rewrite Hnone. reflexivity.
  - intros (Hacc & a & (line & rest & Hin & Hint) & Hlt).
    rewrite (transfer_money_amount _ _ _ _ _ _ Hacc Hin Hint). cbv zeta.
    apply Z.leb_gt in Hlt. rewrite Hlt, Hin. reflexivity.
Qed.

(** C4: the guards are tried in the order same account, checksum, existence,
    amount, and the first that fails ends the transfer.  When one of the
    first three fails, the only effect is the message of that guard: the
    amount is not asked for and no line of input is read, whatever the
    later guards would have said; in particular a transfer to the sender's
    own number is refused whatever amount is waiting on the console. *)
Theorem transfer_guard_order (self : Account.t) (receiver : string) (w : world)
    (g : guard) :
  guard_rejects g self receiver w ->
  exists w',
    Account.transfer_money self receiver w = (Ok self, w') /\
    match g with
    | InsufficientFunds =>
        stdin w' = tail (stdin w) /\
        stdout w' = stdout w ++ [Account.prompt_amount; Account.msg_not_enough +:+ LF]
    | _ =>
        stdin w' = stdin w /\
        stdout w' = stdout w ++ [guard_msg g +:+ LF]
    end.
Proof.
  intros Hg. rewrite (transfer_money_rejects _ _ _ _ Hg).
  eexists. split; [reflexivity|].
  destruct g; split; try reflexivity.
  unfold written. cbn [stdout set_stdout set_stdin]. rewrite <- app_assoc. reflexivity.
Qed.

Lemma transfer_guard_order_witness :
  exists w',
    Account.transfer_money self_ex sender_ex (world_ex "999999") = (Ok self_ex, w') /\
    stdin w' = ["999999"] /\
    stdout w' = [Account.msg_same_account +:+ LF].
Proof.
  apply (transfer_guard_order self_ex sender_ex (world_ex "999999") SameAccount).
  reflexivity.
Defined.

(** Every run of [transfer_money], also one that raises, either leaves the
    table as it was or applies both statements. *)
Lemma transfer_money_all_or_nothing self receiver w r w' :
  Account.transfer_money self receiver w = (r, w') ->
  (card w' = card w /\ forall self', r = Ok self' -> self' = self) \/
  (exists a, r = Ok (Account.set_balance (Account.balance self - a) self) /\
             card w' = moved (Account.number self) receiver a (card w)).
Proof.
  unfold Account.transfer_money.
  destruct (receiver =? Account.number self)%string eqn:Heq.
  { intros [= <- <-]. left. split; [reflexivity | congruence]. }
  unfold bind at 1, lift at 1.
  destruct (is_card_number_valid receiver) as [[|]|e] eqn:Hv; cbn [negb].
  2:{ intros [= <- <-]. left. split; [reflexivity | congruence]. }
  2:{ intros [= <- <-]. left. split; [reflexivity | congruence]. }
  unfold bind at 1, do_card_number_exists, bind at 1, database.get_card_by_number, ret at 1.
  destruct (card w !! receiver) as [[p b]|] eqn:Hr; cbn [negb].
  2:{ intros [= <- <-]. left. split; [reflexivity | congruence]. }
  unfold bind at 1.
  destruct (stdin w) as [|line rest] eqn:Hin.
  { destruct (input_eof Account.prompt_amount w Hin) as (w1 & -> & Hc).
    intros [= <- <-]. left. split; [assumption | congruence]. }
  rewrite (input_prompt_line Account.prompt_amount w line rest eq_refl Hin).
  unfold bind at 1, lift at 1.
  destruct (Py.int line) as [a|e] eqn:Hint.
  2:{ intros [= <- <-]. left. split; [reflexivity | congruence]. }
  destruct (a <=? Account.balance self).
  - intros [= <- <-]. right. exists a. split; reflexivity.
  - intros [= <- <-]. left. split; [reflexivity | congruence].
Qed.





(** ** Login *)

Lemma login_reads fuel w num_inp pin_inp rest :
  stdin w = num_inp :: pin_inp :: rest ->
  BankingSystem.login fuel w =
  match card w !! num_inp with
  | Some (pin, balance) =>
      if negb (pin_inp =? pin)%string then
        (Ok tt, written (BankingSystem.msg_wrong +:+ LF) (login_prompted w rest))
      else
        Account.menu fuel (Account.mk num_inp pin balance)
          (written (BankingSystem.msg_logged_in +:+ LF) (login_prompted w rest))
  | None => (Ok tt, written (BankingSystem.msg_wrong +:+ LF) (login_prompted w rest))
  end.
Proof.
  intros Hin. unfold BankingSystem.login.
  unfold bind at 1. rewrite print_written.
  unfold bind at 1. erewrite input_line by (cbn [stdin written set_stdout]; exact Hin).
  unfold bind at 1. rewrite print_written.
  unfold bind at 1. erewrite input_line by reflexivity.
  unfold bind at 1, database.get_card_by_number.
  assert (set_stdin rest (written ("Enter your PIN:" +:+ LF)
            (set_stdin (pin_inp :: rest)
               (written ((LF +:+ "Enter your card number:") +:+ LF) w)))
          = login_prompted w rest) as ->.
  { unfold login_prompted, written, set_stdin, set_stdout. cbn [card stdin stdout randint].
    rewrite <- app_assoc. reflexivity. }
  cbn [card set_stdin written set_stdout login_prompted].
  destruct (card w !! num_inp) as [[pin balance]|]; [|reflexivity].
  destruct (negb (pin_inp =? pin)%string); reflexivity.
Qed.

(** C6: with the card number and the PIN read from the console, [login]
    opens the account menu exactly when the table has a row for that number
    whose stored PIN is the PIN entered.  Otherwise it writes the one
    message "Wrong card number or PIN!", the same whether the number is
    unknown or the PIN differs, and returns without opening a session:
    nothing more is read and the table is as it was. *)
Theorem login_contract (fuel : nat) (w : world) (num_inp pin_inp : string)
    (rest : list string) :
  stdin w = num_inp :: pin_inp :: rest ->
  (forall balance, card w !! num_inp = Some (pin_inp, balance) ->
     BankingSystem.login fuel w =
     Account.menu fuel (Account.mk num_inp pin_inp balance)
       (written (BankingSystem.msg_logged_in +:+ LF) (login_prompted w rest))) /\
  (~ authenticates (card w) num_inp pin_inp ->
     BankingSystem.login fuel w =
     (Ok tt, written (BankingSystem.msg_wrong +:+ LF) (login_prompted w rest))).
Proof.
  intros Hin. rewrite (login_reads fuel w num_inp pin_inp rest Hin). split.
  - intros balance ->. rewrite String.eqb_refl. reflexivity.
  - intros Hno. destruct (card w !! num_inp) as [[pin balance]|] eqn:Hr; [|reflexivity].
    destruct (String.eqb_spec pin_inp pin) as [->|Hne]; [|reflexivity].
    exfalso. apply Hno. exists balance. exact Hr.
Qed.

(** A wrong PIN for an existing card and an unknown card give the same world. *)
Lemma login_contract_witness :
  BankingSystem.login 5
    (World (<[sender_ex := ("9012", 200)]> ∅) [sender_ex; "0000"; "1"] [] (fun _ => 0)) =
  (Ok tt,
   written (BankingSystem.msg_wrong +:+ LF)
     (login_prompted
        (World (<[sender_ex := ("9012", 200)]> ∅) [sender_ex; "0000"; "1"] [] (fun _ => 0))
        ["1"])).
Proof.
  apply (login_contract 5
           (World (<[sender_ex := ("9012", 200)]> ∅) [sender_ex; "0000"; "1"] [] (fun _ => 0))
           sender_ex "0000" ["1"]).
  - reflexivity.
  - intros [b Hb]. vm_compute in Hb. discriminate.
Defined.

Example login_unknown_number_same_message :
  stdout (BankingSystem.login 5
            (World (<[sender_ex := ("9012", 200)]> ∅) [receiver_ex; "9012"; "1"] [] (fun _ => 0))).2 =
  stdout (BankingSystem.login 5
            (World (<[sender_ex := ("9012", 200)]> ∅) [sender_ex; "0000"; "1"] [] (fun _ => 0))).2.
Proof. vm_compute. reflexivity. Qed.

(** ** Closing the account *)

Lemma menu_turn_close self w rest :
  stdin w = "4" :: rest ->
  Account.menu_turn self w =
  (Ok (Some self),
   set_card (delete (Account.number self) (card w))
     (set_stdin rest (written (Account.MENU +:+ LF) w))).
Proof.
  intros Hin. unfold Account.menu_turn.
  unfold bind at 1. rewrite print_written.
  unfold bind at 1. erewrite input_line by (cbn [stdin written set_stdout]; exact Hin).
  reflexivity.
Qed.

(** C7 (the code at the failing input): the session of [sender_ex] closes
    the account with "4" and the menu goes on: "2" and "100" add income to
    the deleted identity, "1" shows the cached balance 300, and only "5"
    ends the session. *)
Theorem session_goes_on_after_closure :
  let w := World (<[sender_ex := ("9012", 200)]> ∅) ["4"; "2"; "100"; "1"; "5"] []
                 (fun _ => 0) in
  exists w',
    Account.menu 6 self_ex w = (Ok tt, w') /\
    card w' !! sender_ex = None /\
    stdout w' =
      [Account.MENU +:+ LF;
       Account.MENU +:+ LF; LF +:+ "Enter income:" +:+ LF; "Income was added!" +:+ LF;
       Account.MENU +:+ LF; LF +:+ "Balance: 300" +:+ LF;
       Account.MENU +:+ LF; LF +:+ "You have successfully logged out!" +:+ LF].
Proof.
  cbv zeta. eexists. split; [vm_compute; reflexivity|].
  split; vm_compute; reflexivity.
Qed.

(** ** A program logic for [M] *)

Section Hoare.

Context {A B : Type}.

Lemma hoare_ret (P : world -> Prop) (a : A) (Q : A -> world -> Prop) E :
  (forall w, P w -> Q a w) -> hoare P (ret a) Q E.
Proof. intros H w HP. apply H, HP. Qed.

Lemma hoare_raise (P : world -> Prop) e (Q : A -> world -> Prop) (E : world -> Prop) :
  (forall w, P w -> E w) -> hoare P (raise e) Q E.
Proof. intros H w HP. apply H, HP. Qed.

Lemma hoare_bind (P : world -> Prop) (m : M A) (R : A -> world -> Prop)
    (k : A -> M B) (Q : B -> world -> Prop) (E : world -> Prop) :
  hoare P m R E -> (forall a, hoare (R a) (k a) Q E) -> hoare P (bind m k) Q E.
Proof.
  intros Hm Hk w HP. specialize (Hm w HP). unfold bind.
  destruct (m w) as [[a|e] w1]; [apply Hk; assumption | assumption].
Qed.

Lemma hoare_weaken (P P' : world -> Prop) (m : M A) (Q Q' : A -> world -> Prop)
    (E E' : world -> Prop) :
  hoare P' m Q' E' ->
  (forall w, P w -> P' w) -> (forall a w, Q' a w -> Q a w) -> (forall w, E' w -> E w) ->
  hoare P m Q E.
Proof.
  intros Hm HP HQ HE w Hw. specialize (Hm w (HP w Hw)).
  destruct (m w) as [[a|e] w1]; auto.
Qed.

Lemma hoare_lift (P : world -> Prop) (r : result A) :
  hoare P (lift r) (fun a w => P w /\ r = Ok a) P.
Proof. intros w H. unfold lift. destruct r; auto. Qed.

End Hoare.

Section Invariant.

Context {A : Type}.
Variable T : gmap string (string * Z) -> Prop.
Variable Q : A -> world -> Prop.
Variable E : world -> Prop.
Hypothesis HE : forall w, inv T w -> E w.

Lemma hoare_print_then s (k : M A) :
  hoare (inv T) k Q E -> hoare (inv T) (bind (print s) (fun _ => k)) Q E.
Proof. intros Hk w H. unfold bind, print. apply Hk. exact H. Qed.

Lemma hoare_input_then p (k : string -> M A) :
  (forall line, nonneg_line line -> hoare (inv T) (k line) Q E) ->
  hoare (inv T) (bind (input p) k) Q E.
Proof.
  intros Hk w [HT Hin]. unfold bind, input. unfold no_negative_input in Hin.
  destruct (p =? "")%string; cbn [stdin set_stdout];
    (destruct (stdin w) as [|line rest] eqn:Hw;
     [ apply HE; split; [exact HT|]; unfold no_negative_input;
       cbn [stdin set_stdout]; rewrite Hw; constructor
     | apply Forall_cons in Hin as [Hl Hr]; apply (Hk line Hl);
       split; [exact HT | exact Hr] ]).
Qed.

Lemma hoare_lift_then {B} (r : result B) (k : B -> M A) :
  (forall b, r = Ok b -> hoare (inv T) (k b) Q E) ->
  hoare (inv T) (bind (lift r) k) Q E.
Proof.
  intros Hk w H. unfold bind, lift. destruct r as [b|e].
  - apply (Hk b eq_refl w H).
  - apply HE, H.
Qed.

Lemma hoare_random_digits_then n (k : string -> M A) :
  (forall s, hoare (inv T) (k s) Q E) ->
  hoare (inv T) (bind (random_digits n) k) Q E.
Proof.
  revert k. induction n as [|n IH]; intros k Hk; cbn [random_digits].
  - intros w H. apply Hk, H.
  - intros w H. unfold bind at 1 2, randint_0_9.
    set (w1 := set_randint _ w).
    assert (inv T w1) as H1 by exact H.
    pose proof (IH (fun rest => k (Py.str (randint w 0%nat) +:+ rest))
                   (fun rest => Hk _) w1 H1) as Hn.
    unfold bind in Hn |- *. unfold ret.
    destruct (random_digits n w1) as [[rest|e] w2]; exact Hn.
Qed.

Lemma hoare_found_then number (k : bool -> M A) :
  (forall found, hoare (inv T) (k found) Q E) ->
  hoare (inv T) (bind (do_card_number_exists number) k) Q E.
Proof. intros Hk w H. unfold bind. apply Hk, H. Qed.

End Invariant.

(** ** The table under the statements of a session *)

Lemma nonneg_add_income c number income :
  balances_nonneg c -> 0 <= income ->
  balances_nonneg (alter (fun r : string * Z => (r.1, r.2 + income)) number c).
Proof.
  intros Hc Hi n r. rewrite lookup_alter. destruct (decide (number = n)) as [->|Hne].
  - destruct (c !! n) as [r0|] eqn:Hr; [|discriminate]. intros [= <-].
    specialize (Hc n r0 Hr). simpl in *. lia.
  - apply Hc.
Qed.

Lemma session_inv_add_income self c income :
  session_inv self c -> 0 <= income ->
  session_inv (Account.set_balance (Account.balance self + income) self)
    (alter (fun r : string * Z => (r.1, r.2 + income)) (Account.number self) c).
Proof.
  intros [Hc Ha] Hi. split; [apply nonneg_add_income; assumption|].
  intros p b. cbn [Account.number Account.set_balance Account.balance].
  rewrite lookup_alter_eq.
  destruct (c !! Account.number self) as [[p0 b0]|] eqn:Hr; [|discriminate].
  intros [= <- <-]. rewrite (Ha p0 b0 Hr). reflexivity.
Qed.

Lemma session_inv_moved self receiver c a :
  session_inv self c -> receiver <> Account.number self ->
  0 <= a -> a <= Account.balance self ->
  session_inv (Account.set_balance (Account.balance self - a) self)
    (moved (Account.number self) receiver a c).
Proof.
  intros [Hc Ha] Hne H0 Hle. split.
  - intros n r Hn.
    destruct (decide (n = receiver)) as [->|Hnr].
    + unfold moved in Hn. rewrite lookup_alter_eq, lookup_alter_ne in Hn by congruence.
      destruct (c !! receiver) as [r0|] eqn:Hr; [|discriminate]. injection Hn as <-.
      specialize (Hc receiver r0 Hr). simpl in *. lia.
    + destruct (decide (n = Account.number self)) as [->|Hns].
      * unfold moved in Hn. rewrite lookup_alter_ne, lookup_alter_eq in Hn by assumption.
        destruct (c !! Account.number self) as [[p0 b0]|] eqn:Hr; [|discriminate].
        injection Hn as <-. rewrite (Ha p0 b0 Hr). simpl. lia.
      * rewrite moved_other in Hn by assumption. apply (Hc n r Hn).
  - intros p b. cbn [Account.number Account.set_balance Account.balance].
    unfold moved. rewrite lookup_alter_ne, lookup_alter_eq by assumption.
    destruct (c !! Account.number self) as [[p0 b0]|] eqn:Hr; [|discriminate].
    intros [= <- <-]. rewrite (Ha p0 b0 Hr). lia.
Qed.

Lemma session_inv_delete self c :
  session_inv self c -> session_inv self (delete (Account.number self) c).
Proof.
  intros [Hc Ha]. split; [apply map_Forall_delete; assumption|].
  intros p b. rewrite lookup_delete_eq. discriminate.
Qed.

Lemma session_inv_login c number pin balance :
  balances_nonneg c -> c !! number = Some (pin, balance) ->
  session_inv (Account.mk number pin balance) c.
Proof.
  intros Hc Hr. split; [assumption|]. intros p b. simpl. rewrite Hr. congruence.
Qed.

Lemma inv_session_table self w : inv (session_inv self) w -> inv balances_nonneg w.
Proof. intros [[Hc _] Hin]. split; assumption. Qed.

(** ** The invariant along a session and along the main menu *)

Lemma hoare_transfer_money self receiver :
  hoare (inv (session_inv self)) (Account.transfer_money self receiver)
        (fun self' => inv (session_inv self')) (inv balances_nonneg).
Proof.
  unfold Account.transfer_money.
  destruct (String.eqb_spec receiver (Account.number self)) as [Heq|Hne].
  { apply hoare_print_then, hoare_ret. auto. }
  apply hoare_lift_then; [apply inv_session_table|]. intros valid _.
  destruct valid; cbn [negb].
  2:{ apply hoare_print_then, hoare_ret. auto. }
  apply hoare_found_then. intros found.
  destruct found; cbn [negb].
  2:{ apply hoare_print_then, hoare_ret. auto. }
  apply hoare_input_then; [apply inv_session_table|]. intros line Hline.
  apply hoare_lift_then; [apply inv_session_table|]. intros a Ha.
  specialize (Hline a Ha).
  destruct (Z.leb_spec a (Account.balance self)) as [Hle|Hgt].
  - intros w [HT Hin]. split; [|exact Hin].
    apply (session_inv_moved self receiver (card w) a HT Hne Hline Hle).
  - apply hoare_print_then, hoare_ret. auto.
Qed.

Lemma hoare_add_income self income :
  0 <= income ->
  hoare (inv (session_inv self)) (Account.add_income self income)
        (fun self' => inv (session_inv self')) (inv balances_nonneg).
Proof.
  intros Hi w [HT Hin]. split; [|exact Hin].
  apply (session_inv_add_income self (card w) income HT Hi).
Qed.

Lemma hoare_menu_turn self :
  hoare (inv (session_inv self)) (Account.menu_turn self)
        (fun next w =>
           match next with
           | Some self' => inv (session_inv self') w
           | None => inv balances_nonneg w
           end)
        (inv balances_nonneg).
Proof.
  unfold Account.menu_turn.
  apply hoare_print_then.
  apply hoare_input_then; [apply inv_session_table|]. intros action _.
  destruct (action =? "0")%string.
  { apply hoare_print_then, hoare_raise, inv_session_table. }
  destruct (action =? "1")%string.
  { apply hoare_print_then, hoare_ret. auto. }
  destruct (action =? "2")%string.
  { apply hoare_input_then; [apply inv_session_table|]. intros line Hline.
    apply hoare_lift_then; [apply inv_session_table|]. intros income Hi.
    eapply hoare_bind; [apply hoare_add_income, (Hline income Hi)|].
    intros self'. apply hoare_print_then, hoare_ret. auto. }
  destruct (action =? "3")%string.
  { apply hoare_print_then.
    apply hoare_input_then; [apply inv_session_table|]. intros receiver _.
    eapply hoare_bind; [apply hoare_transfer_money|].
    intros self'. apply hoare_ret. auto. }
  destruct (action =? "4")%string.
  { intros w [HT Hin]. split; [|exact Hin].
    apply (session_inv_delete self (card w) HT). }
  destruct (action =? "5")%string.
  { apply hoare_print_then, hoare_ret, inv_session_table. }
  apply hoare_raise, inv_session_table.
Qed.

Lemma hoare_account_menu fuel : forall self,
  hoare (inv (session_inv self)) (Account.menu fuel self)
        (fun _ => inv balances_nonneg) (inv balances_nonneg).
Proof.
  induction fuel as [|fuel IH]; intros self; cbn [Account.menu].
  - apply hoare_raise, inv_session_table.
  - eapply hoare_bind; [apply hoare_menu_turn|].
    intros [self'|]; [apply IH | apply hoare_ret; auto].
Qed.

Lemma hoare_random_digits n :
  hoare (inv balances_nonneg) (random_digits n)
        (fun _ => inv balances_nonneg) (inv balances_nonneg).
Proof.
  intros w H.
  pose proof (hoare_random_digits_then balances_nonneg (fun _ : string => inv balances_nonneg)
                (inv balances_nonneg) n ret
                (fun s => hoare_ret _ s _ _ (fun _ H => H)) w H) as Hn.
  unfold bind, ret in Hn. destruct (random_digits n w) as [[s|e] w']; exact Hn.
Qed.

Lemma hoare_new :
  hoare (inv balances_nonneg) Account.new
        (fun _ => inv balances_nonneg) (inv balances_nonneg).
Proof.
  unfold Account.new.
  eapply hoare_bind with (R := fun _ => inv balances_nonneg).
  { unfold Account._get_account_num.
    apply hoare_random_digits_then. intros account_id.
    intros w H. unfold lift. destruct (account_num_of_id account_id); exact H. }
  intros number.
  eapply hoare_bind; [apply hoare_random_digits|]. intros pin.
  do 3 apply hoare_print_then. apply hoare_ret. auto.
Qed.

Lemma hoare_create_account :
  hoare (inv balances_nonneg) BankingSystem.create_account
        (fun _ => inv balances_nonneg) (inv balances_nonneg).
Proof.
  unfold BankingSystem.create_account.
  eapply hoare_bind; [apply hoare_new|]. intros account w [HT Hin].
  unfold database.add_card.
  destruct (card w !! Account.number account); [split; assumption|].
  split; [|exact Hin]. cbn [card set_card].
  apply map_Forall_insert_2; [simpl; lia | exact HT].
Qed.

Lemma hoare_login fuel :
  hoare (inv balances_nonneg) (BankingSystem.login fuel)
        (fun _ => inv balances_nonneg) (inv balances_nonneg).
Proof.
  unfold BankingSystem.login.
  apply hoare_print_then.
  apply hoare_input_then; [auto|]. intros card_num_inp _.
  apply hoare_print_then.
  apply hoare_input_then; [auto|]. intros pin_inp _.
  intros w [HT Hin]. unfold bind at 1, database.get_card_by_number.
  destruct (card w !! card_num_inp) as [[pin balance]|] eqn:Hr.
  2:{ split; assumption. }
  destruct (negb (pin_inp =? pin)%string).
  { split; assumption. }
  apply (hoare_print_then (session_inv (Account.mk card_num_inp pin balance))).
  - apply hoare_account_menu.
  - split; [|exact Hin]. apply session_inv_login; assumption.
Qed.

Lemma hoare_main_menu_turn fuel :
  hoare (inv balances_nonneg) (BankingSystem.menu_turn fuel)
        (fun _ => inv balances_nonneg) (inv balances_nonneg).
Proof.
  unfold BankingSystem.menu_turn.
  apply hoare_print_then.
  apply hoare_input_then; [auto|]. intros action _.
  destruct (action =? "0")%string.
  { apply hoare_print_then, hoare_raise. auto. }
  destruct (action =? "1")%string; [apply hoare_create_account|].
  destruct (action =? "2")%string; [apply hoare_login|].
  apply hoare_raise. auto.
Qed.

Lemma hoare_main_menu fuel :
  hoare (inv balances_nonneg) (BankingSystem.menu fuel)
        (fun _ => inv balances_nonneg) (inv balances_nonneg).
Proof.
  induction fuel as [|fuel IH]; cbn [BankingSystem.menu].
  - apply hoare_raise. auto.
  - eapply hoare_bind; [apply hoare_main_menu_turn|]. intros u. exact IH.
Qed.




(** ** The iteration bound is never reached
    Every turn of a menu reads at least one line, so with more fuel than
    lines the run ends by [exit()], by an exception of Python or by
    logging out, and not because the bound was hit. *)

Lemma input_cases p w :
  (exists w', input p w = (Raise EOFError, w') /\ stdin w' = stdin w) \/
  (exists line w', input p w = (Ok line, w') /\ stdin w = line :: stdin w').
Proof.
  unfold input. destruct (p =? "")%string; cbn [stdin set_stdout];
    (destruct (stdin w) as [|line rest] eqn:Hw; [left | right]; eauto).
Qed.

Lemma valid_raises number e :
  is_card_number_valid number = Raise e -> e <> OutOfFuel.
Proof.
  intros He. destruct (decide (number = "")) as [->|Hne].
  - rewrite valid_empty_raises in He. congruence.
  - destruct (all_digits number) eqn:Hd.
    + destruct (valid_digits_returns number Hne Hd) as [b Hb]. congruence.
    + rewrite (valid_nondigit_raises number Hne Hd) in He. congruence.
Qed.

Lemma account_num_of_id_raises account_id e :
  account_num_of_id account_id = Raise e -> e = ValueError.
Proof.
  unfold account_num_of_id.
  destruct (luhn_loop 1 _) as [xs|e1] eqn:El; cbn [rbind].
  - destruct (Py.sum_map_int xs) as [v|e2] eqn:Es; cbn [rbind]; [discriminate|].
    intros [= <-]. eauto using sum_map_int_raises.
  - intros [= <-]. eauto using luhn_loop_raises.
Qed.

Lemma random_digits_returns n : forall w,
  exists s w', random_digits n w = (Ok s, w') /\ stdin w' = stdin w.
Proof.
  induction n as [|n IH]; intros w; cbn [random_digits].
  - exists "", w. split; reflexivity.
  - unfold bind at 1, randint_0_9 at 1.
    destruct (IH (set_randint (fun i => randint w (S i)) w)) as (s & w' & Hr & Hs).
    unfold bind. rewrite Hr. unfold ret. eauto.
Qed.

Lemma transfer_money_reads self receiver w r w' :
  Account.transfer_money self receiver w = (r, w') ->
  r <> Raise OutOfFuel /\ (length (stdin w') <= length (stdin w))%nat.
Proof.
  unfold Account.transfer_money.
  destruct (receiver =? Account.number self)%string.
  { intros [= <- <-]. split; [discriminate | reflexivity]. }
  unfold bind at 1, lift at 1.
  destruct (is_card_number_valid receiver) as [[|]|e] eqn:Hv; cbn [negb].
  2:{ intros [= <- <-]. split; [discriminate | reflexivity]. }
  2:{ intros [= <- <-]. split; [|reflexivity].
      intros [= ->]. exact (valid_raises _ _ Hv eq_refl). }
  unfold bind at 1, do_card_number_exists, bind at 1, database.get_card_by_number, ret at 1.
  destruct (card w !! receiver) as [[p b]|]; cbn [negb].
  2:{ intros [= <- <-]. split; [discriminate | reflexivity]. }
  unfold bind at 1.
  destruct (input_cases Account.prompt_amount w) as [(w1 & -> & Hs)|(line & w1 & -> & Hs)].
  { intros [= <- <-]. split; [discriminate | rewrite Hs; reflexivity]. }
  unfold bind at 1, lift at 1.
  destruct (Py.int line) as [a|e] eqn:Hint.
  2:{ intros [= <- <-]. split; [|rewrite Hs; simpl; lia].
      intros [= ->]. apply int_raises in Hint. discriminate. }
  destruct (a <=? Account.balance self);
    intros [= <- <-]; (split; [discriminate | rewrite Hs; simpl; lia]).
Qed.

Lemma menu_turn_reads self w r w' :
  Account.menu_turn self w = (r, w') ->
  r <> Raise OutOfFuel /\
  (length (stdin w') <= length (stdin w))%nat /\
  (forall next, r = Ok next -> (length (stdin w') < length (stdin w))%nat).
Proof.
  unfold Account.menu_turn.
  unfold bind at 1. rewrite print_written. unfold bind at 1.
  destruct (input_cases "" (written (Account.MENU +:+ LF) w))
    as [(w1 & -> & Hs)|(action & w1 & -> & Hs)]; cbn [stdin written set_stdout] in Hs.
  { intros [= <- <-]. rewrite Hs. split_and!; [discriminate | lia | discriminate]. }
  rewrite Hs. cbn [length].
  destruct (action =? "0")%string.
  { intros [= <- <-]. split_and!; [discriminate | simpl; lia | discriminate]. }
  destruct (action =? "1")%string.
  { intros [= <- <-]. split_and!; [discriminate | simpl; lia | intros; simpl; lia]. }
  destruct (action =? "2")%string.
  { unfold bind at 1.
    destruct (input_cases (LF +:+ "Enter income:" +:+ LF) w1)
      as [(w2 & -> & Hs2)|(line & w2 & -> & Hs2)].
    { intros [= <- <-]. rewrite Hs2. split_and!; [discriminate | lia | discriminate]. }
    unfold bind at 1, lift at 1.
    destruct (Py.int line) as [income|e] eqn:Hint.
    2:{ intros [= <- <-]. rewrite Hs2. split_and!; [|simpl; lia | discriminate].
        intros [= ->]. apply int_raises in Hint. discriminate. }
    intros [= <- <-]. rewrite Hs2.
    split_and!; [discriminate | simpl; lia | intros; simpl; lia]. }
  destruct (action =? "3")%string.
  { unfold bind at 1. rewrite print_written. unfold bind at 1.
    destruct (input_cases ("Enter card number:" +:+ LF) (written ((LF +:+ "Transfer") +:+ LF) w1))
      as [(w2 & -> & Hs2)|(receiver & w2 & -> & Hs2)]; cbn [stdin written set_stdout] in Hs2.
    { intros [= <- <-]. rewrite Hs2. split_and!; [discriminate | lia | discriminate]. }
    unfold bind at 1.
    destruct (Account.transfer_money self receiver w2) as [[self'|e] w3] eqn:Ht;
      destruct (transfer_money_reads _ _ _ _ _ Ht) as [Hne Hle];
      intros [= <- <-]; rewrite Hs2; simpl.
    - split_and!; [discriminate | lia | intros; lia].
    - split_and!; [congruence | lia | discriminate]. }
  destruct (action =? "4")%string.
  { intros [= <- <-]. split_and!; [discriminate | simpl; lia | intros; simpl; lia]. }
  destruct (action =? "5")%string.
  { intros [= <- <-]. split_and!; [discriminate | simpl; lia | intros; simpl; lia]. }
  intros [= <- <-]. split_and!; [discriminate | simpl; lia | discriminate].
Qed.

Lemma account_menu_fuel fuel : forall self w r w',
  (length (stdin w) < fuel)%nat ->
  Account.menu fuel self w = (r, w') ->
  r <> Raise OutOfFuel /\ (length (stdin w') <= length (stdin w))%nat.
Proof.
  induction fuel as [|fuel IH]; intros self w r w' Hlen; [lia|].
  cbn [Account.menu]. unfold bind.
  destruct (Account.menu_turn self w) as [[next|e] w1] eqn:Ht;
    destruct (menu_turn_reads _ _ _ _ Ht) as (Hne & Hle & Hlt).
  - specialize (Hlt next eq_refl). destruct next as [self'|].
    + intros Hm. destruct (IH self' w1 r w' ltac:(lia) Hm) as [H1 H2].
      split; [assumption | lia].
    + intros [= <- <-]. split; [discriminate | lia].
  - intros [= <- <-]. split; [|lia].
    intros [= ->]. apply Hne. reflexivity.
Qed.

Lemma create_account_reads w r w' :
  BankingSystem.create_account w = (r, w') ->
  r <> Raise OutOfFuel /\ stdin w' = stdin w.
Proof.
  unfold BankingSystem.create_account, Account.new, Account._get_account_num, Account._get_pin.
  unfold bind at 1 2 3.
  destruct (random_digits_returns 9 w) as (account_id & w1 & -> & Hs1).
  unfold lift. destruct (account_num_of_id account_id) as [number|e] eqn:Hn.
  2:{ intros [= <- <-]. split; [|assumption].
      intros [= ->]. apply account_num_of_id_raises in Hn. discriminate. }
  unfold bind at 1.
  destruct (random_digits_returns 4 w1) as (pin & w2 & -> & Hs2).
  unfold bind, print, ret, database.add_card. cbn [card set_stdout Account.number].
  destruct (card w2 !! number); intros [= <- <-];
    (split; [discriminate | cbn [stdin set_card set_stdout]; congruence]).
Qed.

Lemma login_fuel fuel w r w' :
  (length (stdin w) < fuel + 2)%nat ->
  BankingSystem.login fuel w = (r, w') ->
  r <> Raise OutOfFuel /\ (length (stdin w') <= length (stdin w))%nat.
Proof.
  intros Hlen. unfold BankingSystem.login.
  unfold bind at 1. rewrite print_written. unfold bind at 1.
  destruct (input_cases "" (written ((LF +:+ "Enter your card number:") +:+ LF) w))
    as [(w1 & -> & Hs1)|(num & w1 & -> & Hs1)]; cbn [stdin written set_stdout] in Hs1.
  { intros [= <- <-]. rewrite Hs1. split; [discriminate | lia]. }
  unfold bind at 1. rewrite print_written. unfold bind at 1.
  destruct (input_cases "" (written ("Enter your PIN:" +:+ LF) w1))
    as [(w2 & -> & Hs2)|(pin_inp & w2 & -> & Hs2)]; cbn [stdin written set_stdout] in Hs2.
  { intros [= <- <-]. rewrite Hs1, Hs2. split; [discriminate | simpl; lia]. }
  unfold bind at 1, database.get_card_by_number.
  rewrite Hs1, Hs2 in Hlen |- *. cbn [length] in Hlen |- *.
  destruct (card w2 !! num) as [[pin balance]|].
  2:{ intros [= <- <-]. split; [discriminate | simpl; lia]. }
  destruct (negb (pin_inp =? pin)%string).
  { intros [= <- <-]. split; [discriminate | simpl; lia]. }
  unfold bind at 1. rewrite print_written. intros Hm.
  apply account_menu_fuel in Hm; [|cbn [stdin written set_stdout]; lia].
  cbn [stdin written set_stdout] in Hm. destruct Hm as [H1 H2]. split; [assumption | lia].
Qed.

Lemma main_menu_fuel fuel : forall w r w',
  (length (stdin w) < fuel)%nat ->
  BankingSystem.menu fuel w = (r, w') -> r <> Raise OutOfFuel.
Proof.
  induction fuel as [|fuel IH]; intros w r w' Hlen; [lia|].
  cbn [BankingSystem.menu]. unfold bind at 1, BankingSystem.menu_turn.
  unfold bind at 1. rewrite print_written. unfold bind at 1.
  destruct (input_cases "" (written (BankingSystem.MENU +:+ LF) w))
    as [(w1 & -> & Hs)|(action & w1 & -> & Hs)]; cbn [stdin written set_stdout] in Hs.
  { intros [= <- <-]. discriminate. }
  rewrite Hs in Hlen. cbn [length] in Hlen.
  destruct (action =? "0")%string.
  { unfold bind, print, raise. intros [= <- <-]. discriminate. }
  destruct (action =? "1")%string.
  { destruct (BankingSystem.create_account w1) as [[u|e] w2] eqn:Hc;
      destruct (create_account_reads _ _ _ Hc) as [Hne Hs2].
    - intros Hm. apply (IH w2 r w'); [rewrite Hs2; lia | exact Hm].
    - intros [= <- <-]. assumption. }
  destruct (action =? "2")%string.
  { assert (length (stdin w1) < fuel + 2)%nat as Hlen2 by lia.
    destruct (BankingSystem.login fuel w1) as [[u|e] w2] eqn:Hl;
      destruct (login_fuel _ _ _ _ Hlen2 Hl) as [Hne Hle].
    - intros Hm. apply (IH w2 r w'); [lia | exact Hm].
    - intros [= <- <-]. assumption. }
  intros [= <- <-]. discriminate.
Qed.

(** The program stops on every finite input, and never because of the
    bound of the model. *)
Lemma main_stops w : exists e w', main w = (Raise e, w') /\ e <> OutOfFuel.
Proof.
  unfold main. destruct (BankingSystem.menu _ w) as [[u|e] w'] eqn:Hm.
  - exfalso. clear -Hm. revert Hm. generalize (S (length (stdin w))). intros fuel.
    revert w w'. induction fuel as [|fuel IH]; intros w w'; cbn [BankingSystem.menu].
    + discriminate.
    + unfold bind at 1. destruct (BankingSystem.menu_turn fuel w) as [[u'|e] w1]; [|discriminate].
      apply IH.
  - exists e, w'. split; [reflexivity|].
    intros ->. eapply main_menu_fuel; [|exact Hm|reflexivity]. lia.
Qed.

(** ** The examples of the specification *)

Example str_negative : Py.str (-50) = "-50".
Proof. vm_compute. reflexivity. Qed.

Example int_forms :
  Py.int " 1_000 " = Ok 1000 /\ Py.int "+7" = Ok 7 /\ Py.int "-50" = Ok (-50) /\
  Py.int "1__0" = Raise ValueError /\ Py.int "" = Raise ValueError /\
  Py.int "- 5" = Raise ValueError.
Proof. vm_compute. repeat split. Qed.

(** The fixed vector of the specification: base 400000023456789. *)
Example checksum_fixed_vector : account_num_of_id "023456789" = Ok "4000000234567891".
Proof. vm_compute. reflexivity. Qed.

(** Deposit 100, then 50: cache and table agree on 100, then on 150. *)
Example deposit_twice :
  let w := World (<[sender_ex := ("9012", 0)]> ∅) ["2"; "100"; "2"; "50"; "1"; "5"] []
                 (fun _ => 0) in
  match Account.add_income (Account.mk sender_ex "9012" 0) 100 w with
  | (Ok self1, w1) =>
      Account.balance self1 = 100 /\ balance_of (card w1) sender_ex = Some 100 /\
      match Account.add_income self1 50 w1 with
      | (Ok self2, w2) =>
          Account.balance self2 = 150 /\ balance_of (card w2) sender_ex = Some 150
      | _ => False
      end
  | _ => False
  end.
Proof. vm_compute. repeat split. Qed.

(** After closing, a login with the number of the closed account fails. *)
Example login_after_closure :
  let w := World (<[sender_ex := ("9012", 200)]> ∅)
                 ["2"; sender_ex; "9012"; "4"; "5"; "2"; sender_ex; "9012"; "0"] []
                 (fun _ => 0) in
  (main w).1 = Raise SystemExit /\
  last (removelast (removelast (stdout (main w).2))) =
    Some (BankingSystem.msg_wrong +:+ LF).
Proof. vm_compute. split; reflexivity. Qed.

(** * Further properties of the code *)

(** ** The shape of what is generated *)

Lemma forallb_digits_of s ds : digits_of s = Some ds -> forallb is_digit s = true.
Proof. intros H. apply digits_of_forallb. eauto. Qed.

Lemma random_digits_draws n : forall w,
  randint_ok w ->
  exists s ds,
    random_digits n w = (Ok s, set_randint (fun i => randint w (n + i)%nat) w) /\
    digits_of (list_ascii_of_string s) = Some ds /\ length ds = n.
Proof.
  induction n as [|n IH]; intros w Hw.
  - exists "", []. split_and!; try reflexivity. destruct w; reflexivity.
  - cbn [random_digits]. unfold bind at 1, randint_0_9 at 1.
    set (w1 := set_randint _ w).
    assert (randint_ok w1) as Hw1 by (intros i; apply Hw).
    destruct (IH w1 Hw1) as (s & ds & Hr & Hds & Hlen).
    unfold bind. rewrite Hr. unfold ret.
    destruct (str_digit (randint w 0%nat) (Hw 0%nat)) as (c & Hstr & Hc0).
    exists (Py.str (randint w 0%nat) +:+ s), (randint w 0%nat :: ds).
    split; [reflexivity|].
    rewrite Hstr, list_ascii_of_string_app. unfold Py.chr.
    cbn [list_ascii_of_string app digits_of]. rewrite Hc0, Hds.
    split; [reflexivity | simpl; congruence].
Qed.

Lemma account_num_of_id_shape account_id ds :
  digits_of (list_ascii_of_string account_id) = Some ds ->
  exists c d,
    Py.digit_val c = Some d /\
    account_num_of_id account_id = Ok ((issuer_num +:+ account_id) +:+ Py.chr c).
Proof.
  intros Hds. unfold account_num_of_id.
  assert (digits_of (list_ascii_of_string (issuer_num +:+ account_id))
          = Some ([4;0;0;0;0;0] ++ ds)) as Hnum.
  { rewrite list_ascii_of_string_app. apply digits_of_app; [reflexivity | assumption]. }
  destruct (luhn_loop_digits _ 1 _ Hnum) as (xs & -> & Hs).
  cbn [rbind]. rewrite Hs. cbn [rbind].
  destruct (ceil_div10_spec (luhn_sum 1 ([4;0;0;0;0;0] ++ ds))) as [Hr _]. cbv zeta in Hr.
  destruct (str_digit _ Hr) as (c & Hstr & Hc).
  eexists c, _. split; [exact Hc|]. rewrite Hstr. reflexivity.
Qed.

Lemma prefix_app s1 s2 : String.prefix s1 (s1 +:+ s2) = true.
Proof.
  induction s1 as [|c s1 IH]; simpl; [destruct s2; reflexivity|].
  destruct (ascii_dec c c); [exact IH | contradiction].
Qed.

(** X1: whatever the draws in 0..9 are, [Account._get_account_num] returns
    a string of 16 decimal digits that starts with the issuer number
    400000; it uses up nine draws and touches nothing else in the world. *)
Theorem generated_number_format (w : world) :
  randint_ok w ->
  exists n,
    Account._get_account_num w =
      (Ok n, set_randint (fun i => randint w (9 + i)%nat) w) /\
    String.length n = 16%nat /\
    all_digits n = true /\
    String.prefix issuer_num n = true.
Proof.
  intros Hw. unfold Account._get_account_num, bind, lift.
  destruct (random_digits_draws 9 w Hw) as (s & ds & -> & Hds & Hlen).
  destruct (account_num_of_id_shape s ds Hds) as (c & d & Hc & ->).
  eexists. split; [reflexivity|]. split_and!.
  - rewrite <- length_list_ascii, !list_ascii_of_string_app, !length_app.
    rewrite <- (digits_of_length _ _ Hds), Hlen. reflexivity.
  - unfold all_digits. rewrite !list_ascii_of_string_app, !forallb_app.
    rewrite (forallb_digits_of _ _ Hds). simpl. unfold is_digit. rewrite Hc. reflexivity.
  - change ((issuer_num +:+ s) +:+ Py.chr c) with (issuer_num +:+ (s +:+ Py.chr c)).
    apply prefix_app.
Qed.

Lemma generated_number_format_witness :
  exists n,
    Account._get_account_num (World ∅ [] [] (fun _ => 7)) =
      (Ok n, set_randint (fun i => 7) (World ∅ [] [] (fun _ => 7))) /\
    String.length n = 16%nat /\
    all_digits n = true /\
    String.prefix issuer_num n = true.
Proof.
  apply (generated_number_format (World ∅ [] [] (fun _ => 7))).
  intros i. simpl. lia.
Defined.

(** X2: whatever the draws in 0..9 are, [Account._get_pin] returns a string
    of four decimal digits; it uses up four draws and touches nothing else
    in the world. *)
Theorem generated_pin_format (w : world) :
  randint_ok w ->
  exists pin,
    Account._get_pin w = (Ok pin, set_randint (fun i => randint w (4 + i)%nat) w) /\
    String.length pin = 4%nat /\
    all_digits pin = true.
Proof.
  intros Hw. unfold Account._get_pin.
  destruct (random_digits_draws 4 w Hw) as (s & ds & -> & Hds & Hlen).
  exists s. split; [reflexivity|]. split.
  - rewrite <- length_list_ascii, <- (digits_of_length _ _ Hds). exact Hlen.
  - exact (forallb_digits_of _ _ Hds).
Qed.

Lemma generated_pin_format_witness :
  exists pin,
    Account._get_pin (World ∅ [] [] (fun _ => 3)) =
      (Ok pin, set_randint (fun i => 3) (World ∅ [] [] (fun _ => 3))) /\
    String.length pin = 4%nat /\
    all_digits pin = true.
Proof.
  apply (generated_pin_format (World ∅ [] [] (fun _ => 3))).
  intros i. simpl. lia.
Defined.

(** ** The checksum as an error-detecting code *)

(** Adds to the context what defines [n mod 2]. *)
Ltac mod2_facts n :=
  pose proof (Nat.div_mod_eq n 2);
  pose proof (Nat.mod_upper_bound n 2 ltac:(discriminate)).

Lemma mod2_same a b : ((a + b) mod 2 = 0)%nat -> (a mod 2 = b mod 2)%nat.
Proof. intros H. mod2_facts a. mod2_facts b. mod2_facts (a + b)%nat. lia. Qed.

Lemma mod2_even n : Nat.even n = true -> (n mod 2 = 0)%nat.
Proof. intros H. apply Nat.even_spec in H as [k ->]. mod2_facts (2 * k)%nat. lia. Qed.

Lemma weight_parity a b d : ((a + b) mod 2 = 0)%nat -> weight a d = weight b d.
Proof. intros H. unfold weight. rewrite (mod2_same a b H). reflexivity. Qed.

Lemma luhn_sum_app l1 : forall i l2,
  luhn_sum i (l1 ++ l2) = luhn_sum i l1 + luhn_sum (i + length l1) l2.
Proof.
  induction l1 as [|d l1 IH]; intros i l2; simpl.
  - rewrite Nat.add_0_r. lia.
  - rewrite IH. replace (S i + length l1)%nat with (i + S (length l1))%nat by lia. lia.
Qed.

Lemma luhn_sum_rev ds : forall i j,
  ((i + j + length ds + 1) mod 2 = 0)%nat ->
  luhn_sum i ds = luhn_sum j (rev ds).
Proof.
  induction ds as [|d ds IH]; intros i j H; [reflexivity|].
  cbn [rev]. rewrite luhn_sum_app. cbn [luhn_sum]. fold (weight i d).
  fold (weight (j + length (rev ds)) d).
  cbn [length] in H.
  rewrite (IH (S i) j).
  2:{ replace (S i + j + length ds + 1)%nat with (i + j + S (length ds) + 1)%nat by lia.
      exact H. }
  rewrite length_rev.
  rewrite (weight_parity i (j + length ds) d); [lia|].
  mod2_facts (i + j + S (length ds) + 1)%nat. mod2_facts (i + (j + length ds))%nat. lia.
Qed.

(** On a string of digits of even length, the last digit sits at an even
    position, so the total is the weighted sum over all the digits. *)
Lemma valid_even_length number ds :
  digits_of (list_ascii_of_string number) = Some ds ->
  number <> "" ->
  Nat.even (String.length number) = true ->
  is_card_number_valid number = Ok (luhn_sum 1 ds mod 10 =? 0).
Proof.
  intros Hds Hne Hev.
  destruct (exists_last (l := list_ascii_of_string number)) as (body & c & Hn).
  { intros H. apply Hne. rewrite <- (string_of_list_ascii_of_string number), H. reflexivity. }
  rewrite Hn in Hds.
  apply digits_of_app_inv in Hds as (dsb & dsc & Hb & Hc & ->).
  simpl in Hc. destruct (Py.digit_val c) as [d|] eqn:Ec; [|discriminate].
  injection Hc as <-.
  rewrite (valid_digits number body c dsb d Hn Hb Ec).
  rewrite luhn_sum_app. cbn [luhn_sum].
  rewrite <- length_list_ascii, Hn, length_app in Hev. cbn [length] in Hev.
  rewrite (digits_of_length _ _ Hb).
  apply mod2_even in Hev.
  replace (1 + length body)%nat with (length body + 1)%nat by lia.
  rewrite Hev. cbn [Nat.eqb]. rewrite Z.add_0_r. reflexivity.
Qed.

(** X3: on a non-empty string of digits of even length, which the
    16-digit card numbers are, [is_card_number_valid] is the Luhn check in
    its usual form (from the right, every second digit doubled). *)
Theorem validation_is_luhn_on_even_length (number : string) (ds : list Z) :
  digits_of (list_ascii_of_string number) = Some ds ->
  number <> "" ->
  Nat.even (String.length number) = true ->
  is_card_number_valid number = Ok (luhn_standard ds).
Proof.
  intros Hds Hne Hev. rewrite (valid_even_length number ds Hds Hne Hev).
  unfold luhn_standard. rewrite (luhn_sum_rev ds 1 0); [reflexivity|].
  rewrite (digits_of_length _ _ Hds), length_list_ascii.
  apply mod2_even in Hev.
  mod2_facts (String.length number). mod2_facts (1 + 0 + String.length number + 1)%nat. lia.
Qed.

Lemma validation_is_luhn_on_even_length_witness :
  is_card_number_valid "4000008449433403" =
  Ok (luhn_standard [4;0;0;0;0;0;8;4;4;9;4;3;3;4;0;3]).
Proof.
  apply (validation_is_luhn_on_even_length "4000008449433403");
    [reflexivity | discriminate | reflexivity].
Defined.

(** On a string of odd length the two differ: the code doubles the digits
    that the usual form keeps. *)
Example validation_is_not_luhn_on_odd_length :
  is_card_number_valid "125" = Ok false /\ luhn_standard [1;2;5] = true.
Proof. split; vm_compute; reflexivity. Qed.

Lemma mod10_same t d d' :
  (t + d) mod 10 = 0 -> 0 <= d <= 9 -> 0 <= d' <= 9 ->
  ((t + d') mod 10 = 0 <-> d' = d).
Proof.
  intros Ht Hd Hd'. split; [|intros ->; exact Ht].
  intros Ht'. destruct (decide (d' = d)) as [|Hne]; [assumption|].
  exfalso. apply (mod10_shift (t + d) (d' - d) Ht); [lia | lia|].
  replace (t + d + (d' - d)) with (t + d') by lia. exact Ht'.
Qed.

(** X4: every string of digits has exactly one check digit: of the ten
    digits that can be appended to it, one and only one gives a number that
    [is_card_number_valid] accepts. *)
Theorem check_digit_exists_unique (body : string) :
  all_digits body = true ->
  exists c, is_digit c = true /\
    forall c', is_digit c' = true ->
      (is_card_number_valid (body +:+ Py.chr c') = Ok true <-> c' = c).
Proof.
  intros Hall. apply digits_of_forallb in Hall as [ds Hds].
  destruct (ceil_div10_spec (luhn_sum 1 ds)) as [Hr Hm]. cbv zeta in Hr, Hm.
  destruct (str_digit _ Hr) as (c & _ & Hc).
  exists c. split; [unfold is_digit; rewrite Hc; reflexivity|].
  intros c' Hc'. unfold is_digit in Hc'.
  destruct (Py.digit_val c') as [d'|] eqn:Ec'; [|discriminate].
  rewrite (valid_digits (body +:+ Py.chr c') (list_ascii_of_string body) c' ds d');
    [| apply list_ascii_of_string_app | exact Hds | exact Ec'].
  pose proof (mod10_same _ _ d' Hm Hr (digit_val_range _ _ Ec')) as Hiff.
  split.
  - intros [= Hb]. apply Z.eqb_eq in Hb. apply Hiff in Hb. subst d'.
    eapply digit_val_inj; eassumption.
  - intros ->. rewrite Ec' in Hc. injection Hc as ->.
    f_equal. apply Z.eqb_eq, Hiff. reflexivity.
Qed.

Lemma check_digit_exists_unique_witness :
  exists c, is_digit c = true /\
    forall c', is_digit c' = true ->
      (is_card_number_valid ("400000844943340" +:+ Py.chr c') = Ok true <-> c' = c).
Proof.
  apply (check_digit_exists_unique "400000844943340"). reflexivity.
Defined.

Lemma swap_delta k da db :
  0 <= da <= 9 -> 0 <= db <= 9 ->
  let delta := (weight (S k) da - weight (S k) db) + (weight k db - weight k da) in
  -9 <= delta <= 9 /\
  (delta = 0 <-> da = db \/ (da = 0 /\ db = 9) \/ (da = 9 /\ db = 0)).
Proof.
  intros Ha Hb. unfold weight. mod2_facts k. mod2_facts (S k).
  destruct (Nat.eqb_spec (k mod 2) 1) as [Hk|Hk];
    destruct (Nat.eqb_spec (S k mod 2) 1) as [Hs|Hs]; try lia;
    unfold dbl; destruct (9 <? da * 2) eqn:Ea; destruct (9 <? db * 2) eqn:Eb; lia.
Qed.

Lemma zero_nine_digits a b da db :
  Py.digit_val a = Some da -> Py.digit_val b = Some db ->
  zero_nine a b = true <-> (da = 0 /\ db = 9) \/ (da = 9 /\ db = 0).
Proof.
  intros Ha Hb.
  assert (forall c d v x, Py.digit_val c = Some d -> Py.digit_val x = Some v ->
                          (Ascii.eqb c x = true <-> d = v)) as Heq.
  { intros c d v x Hc Hx. rewrite Ascii.eqb_eq. split.
    - intros ->. congruence.
    - intros ->. eapply digit_val_inj; eassumption. }
  unfold zero_nine. rewrite orb_true_iff, !andb_true_iff.
  rewrite (Heq a da 0 "0"%char Ha eq_refl), (Heq b db 9 "9"%char Hb eq_refl).
  rewrite (Heq a da 9 "9"%char Ha eq_refl), (Heq b db 0 "0"%char Hb eq_refl).
  reflexivity.
Qed.

(** X5: in a valid number of even length, which the 16-digit card numbers
    are, exchanging two neighbouring digits that differ gives a number that
    [is_card_number_valid] rejects, unless the two digits are 0 and 9: that
    one exchange goes unnoticed. *)
Theorem adjacent_transposition (number : string) (i : nat) (a b : ascii) :
  Nat.even (String.length number) = true ->
  all_digits number = true ->
  is_card_number_valid number = Ok true ->
  list_ascii_of_string number !! i = Some a ->
  list_ascii_of_string number !! S i = Some b ->
  a <> b ->
  is_card_number_valid (swap_adjacent i number) = Ok (zero_nine a b).
Proof.
  intros Hev Hall Hv Hi Hsi Hab.
  assert (number <> "") as Hne by (intros ->; discriminate).
  apply digits_of_forallb in Hall as [ds Hds].
  rewrite (valid_even_length number ds Hds Hne Hev) in Hv.
  injection Hv as Hv. apply Z.eqb_eq in Hv.
  destruct (digits_of_lookup _ _ _ _ Hds Hi) as (da & Hda & Hca).
  destruct (digits_of_lookup _ _ _ _ Hds Hsi) as (db & Hdb & Hcb).
  pose proof (digit_val_range _ _ Hca) as Ra.
  pose proof (digit_val_range _ _ Hcb) as Rb.
  set (chars' := <[i := b]> (<[S i := a]> (list_ascii_of_string number))).
  assert (list_ascii_of_string (swap_adjacent i number) = chars') as Hsw.
  { unfold swap_adjacent. rewrite Hi, Hsi. apply list_ascii_of_string_of_list_ascii. }
  assert (digits_of chars' = Some (<[i := db]> (<[S i := da]> ds))) as Hds'.
  { unfold chars'. apply digits_of_insert; [|exact Hcb].
    apply digits_of_insert; assumption. }
  rewrite <- Hsw in Hds'.
  rewrite (valid_even_length _ _ Hds').
  2:{ intros H. rewrite H in Hsw. unfold chars' in Hsw.
      apply (f_equal (@length ascii)) in Hsw. rewrite !length_insert in Hsw.
      apply lookup_lt_Some in Hi. simpl in Hsw. lia. }
  2:{ rewrite <- length_list_ascii, Hsw. unfold chars'. rewrite !length_insert.
      rewrite length_list_ascii. exact Hev. }
  f_equal.
  rewrite (luhn_sum_insert _ 1 i da db)
    by (rewrite list_lookup_insert_ne by lia; exact Hda).
  rewrite (luhn_sum_insert ds 1 (S i) db da Hdb).
  replace (1 + S i)%nat with (S (1 + i)) by lia.
  destruct (swap_delta (1 + i) da db Ra Rb) as [Hr Hz]. cbv zeta in Hr, Hz.
  set (delta := weight (S (1 + i)) da - weight (S (1 + i)) db +
                (weight (1 + i) db - weight (1 + i) da)) in *.
  replace (luhn_sum 1 ds + (weight (S (1 + i)) da - weight (S (1 + i)) db) +
           (weight (1 + i) db - weight (1 + i) da))
    with (luhn_sum 1 ds + delta) by (unfold delta; lia).
  assert (da <> db) as Hne'.
  { intros ->. apply Hab. eapply digit_val_inj; eassumption. }
  pose proof (zero_nine_digits a b da db Hca Hcb) as Hzn.
  destruct (zero_nine a b).
  - apply Z.eqb_eq. assert (delta = 0) as -> by (apply Hz; right; apply Hzn; reflexivity).
    rewrite Z.add_0_r. exact Hv.
  - apply Z.eqb_neq. apply mod10_shift; [exact Hv | | exact Hr].
    intros H0. apply Hz in H0 as [H0|H0]; [contradiction|].
    apply Hzn in H0. discriminate.
Qed.

Lemma adjacent_transposition_witness :
  is_card_number_valid (swap_adjacent 6 "4000008449433403") = Ok false.
Proof.
  apply (adjacent_transposition "4000008449433403" 6 "8" "4");
    [reflexivity | reflexivity | reflexivity | reflexivity | reflexivity | discriminate].
Defined.

(** The exchange of a 0 and a 9 that the check does not see. *)
Example transposition_of_zero_and_nine :
  is_card_number_valid "4000000000000903" = Ok true /\
  swap_adjacent 12 "4000000000000903" = "4000000000009003" /\
  is_card_number_valid "4000000000009003" = Ok true.
Proof. split_and!; vm_compute; reflexivity. Qed.

(** ** The statements of database.py *)

Lemma set_card_id w : set_card (card w) w = w.
Proof. destruct w; reflexivity. Qed.




(** X8: a number can be inserted once.  [add_card] on a number without a
    row stores the PIN with balance 0 and touches no other row, after which
    [get_card_by_number] returns that one row and [do_card_number_exists]
    says yes; a second [add_card] on the number raises and leaves the first
    PIN and the balance in place. *)
Theorem add_card_round_trip (number pin : string) (w : world) :
  card w !! number = None ->
  exists w',
    database.add_card number pin w = (Ok tt, w') /\
    database.get_card_by_number number w' = (Ok [(number, pin, 0)], w') /\
    do_card_number_exists number w' = (Ok true, w') /\
    (forall n, n <> number -> card w' !! n = card w !! n) /\
    (forall pin', database.add_card number pin' w' = (Raise IntegrityError, w')).
Proof.
  intros Hnone. unfold database.add_card at 1. rewrite Hnone.
  eexists. split; [reflexivity|].
  unfold do_card_number_exists, bind, database.get_card_by_number, database.add_card, ret.
  cbn [card set_card]. rewrite lookup_insert_eq.
  split_and!; try reflexivity.
  intros n Hn. apply lookup_insert_ne. congruence.
Qed.

Lemma add_card_round_trip_witness :
  exists w',
    database.add_card "4000003456789011" "2345" (world_ex "") = (Ok tt, w') /\
    database.get_card_by_number "4000003456789011" w' =
      (Ok [("4000003456789011", "2345", 0)], w') /\
    do_card_number_exists "4000003456789011" w' = (Ok true, w') /\
    (forall n, n <> "4000003456789011" -> card w' !! n = card (world_ex "") !! n) /\
    (forall pin', database.add_card "4000003456789011" pin' w' = (Raise IntegrityError, w')).
Proof.
  apply (add_card_round_trip "4000003456789011" "2345" (world_ex "")).
  vm_compute. reflexivity.
Defined.

(** X9: after [delete_card] the number has no row: [get_card_by_number]
    returns the empty list and [do_card_number_exists] says no; every other
    row is as it was, and deleting again changes nothing. *)
Theorem delete_card_round_trip (number : string) (w : world) :
  let w' := (database.delete_card number w).2 in
  database.get_card_by_number number w' = (Ok [], w') /\
  do_card_number_exists number w' = (Ok false, w') /\
  (forall n, n <> number -> card w' !! n = card w !! n) /\
  database.delete_card number w' = (Ok tt, w').
Proof.
  cbv zeta. unfold do_card_number_exists, bind, database.get_card_by_number,
    database.delete_card, ret. cbn [snd card set_card]. rewrite lookup_delete_eq.
  split_and!; try reflexivity.
  - intros n Hn. apply lookup_delete_ne. congruence.
  - rewrite delete_delete_eq. reflexivity.
Qed.

(** ** Creating an account, logging in, closing *)

Lemma random_digits_total n : forall w,
  exists s, random_digits n w = (Ok s, set_randint (fun i => randint w (n + i)%nat) w).
Proof.
  induction n as [|n IH]; intros w.
  - exists "". destruct w; reflexivity.
  - cbn [random_digits]. unfold bind at 1, randint_0_9 at 1.
    destruct (IH (set_randint (fun i => randint w (S i)) w)) as (s & Hr).
    unfold bind. rewrite Hr. unfold ret. eexists. reflexivity.
Qed.

Lemma new_eval w account_id pin :
  random_digits 9 w = (Ok account_id, set_randint (fun i => randint w (9 + i)%nat) w) ->
  random_digits 4 (set_randint (fun i => randint w (9 + i)%nat) w) =
    (Ok pin, set_randint (fun i => randint w (13 + i)%nat) w) ->
  Account.new w =
  match account_num_of_id account_id with
  | Ok number => (Ok (Account.mk number pin 0), world_announced w number pin)
  | Raise e => (Raise e, set_randint (fun i => randint w (9 + i)%nat) w)
  end.
Proof.
  intros H9 H4. unfold Account.new, Account._get_account_num, Account._get_pin.
  unfold bind at 1 2. rewrite H9. unfold lift.
  destruct (account_num_of_id account_id) as [number|e]; [|reflexivity].
  unfold bind at 1. rewrite H4.
  unfold bind, print, ret, world_announced, announced.
  cbn [card stdin stdout randint set_stdout set_randint].
  rewrite <- !app_assoc. reflexivity.
Qed.

Lemma random_digits_4_after_9 w :
  exists pin,
    random_digits 4 (set_randint (fun i => randint w (9 + i)%nat) w) =
    (Ok pin, set_randint (fun i => randint w (13 + i)%nat) w).
Proof.
  destruct (random_digits_total 4 (set_randint (fun i => randint w (9 + i)%nat) w))
    as (pin & Hp).
  exists pin. rewrite Hp. reflexivity.
Qed.

(** [Account.new] either stops in [_get_account_num], which only happens
    when a draw falls outside 0..9, or announces what it has drawn. *)
Lemma new_cases w :
  (exists w', Account.new w = (Raise ValueError, w') /\
              card w' = card w /\ stdout w' = stdout w) \/
  (exists number pin,
     Account.new w = (Ok (Account.mk number pin 0), world_announced w number pin)).
Proof.
  destruct (random_digits_total 9 w) as (account_id & H9).
  destruct (random_digits_4_after_9 w) as (pin & H4).
  rewrite (new_eval w account_id pin H9 H4).
  destruct (account_num_of_id account_id) as [number|e] eqn:Hn.
  - right. exists number, pin. reflexivity.
  - left. apply account_num_of_id_raises in Hn as ->. eexists. split; [reflexivity|].
    split; reflexivity.
Qed.

Lemma new_well_formed w :
  randint_ok w ->
  exists number pin,
    Account.new w = (Ok (Account.mk number pin 0), world_announced w number pin) /\
    row_well_formed number pin.
Proof.
  intros Hw.
  destruct (random_digits_draws 9 w Hw) as (account_id & ds & H9 & Hds & Hlen).
  assert (randint_ok (set_randint (fun i => randint w (9 + i)%nat) w)) as Hw9
    by (intros i; apply Hw).
  destruct (random_digits_draws 4 _ Hw9) as (pin & dp & H4 & Hdp & Hlp).
  rewrite (new_eval w account_id pin H9 H4).
  destruct (account_num_of_id_shape account_id ds Hds) as (c & d & Hc & Hshape).
  destruct (account_num_of_id_valid account_id ds Hds) as (number & Hn & Hvalid & Hl).
  rewrite Hn. exists number, pin. split; [reflexivity|].
  rewrite Hn in Hshape. injection Hshape as Hshape. split_and!.
  - rewrite Hl, Hlen. reflexivity.
  - rewrite Hshape.
    change ((issuer_num +:+ account_id) +:+ Py.chr c)
      with (issuer_num +:+ (account_id +:+ Py.chr c)).
    apply prefix_app.
  - rewrite Hshape. unfold all_digits.
    rewrite !list_ascii_of_string_app, !forallb_app.
    rewrite (forallb_digits_of _ _ Hds). simpl. unfold is_digit. rewrite Hc. reflexivity.
  - exact Hvalid.
  - rewrite <- length_list_ascii, <- (digits_of_length _ _ Hdp). exact Hlp.
  - exact (forallb_digits_of _ _ Hdp).
Qed.

(** X10: with draws in 0..9, [create_account] announces a well-formed
    number and PIN.  When the number has no row yet, the row is inserted
    with that PIN and balance 0 and no other row changes; when the number is
    taken, the insert raises [IntegrityError] after the announcement
    "Your card has been created" has been written, and the table is as it
    was. *)
Theorem create_account_outcomes (w : world) :
  randint_ok w ->
  exists number pin,
    row_well_formed number pin /\
    (card w !! number = None ->
       BankingSystem.create_account w =
         (Ok tt, set_card (<[number := (pin, 0)]> (card w)) (world_announced w number pin))) /\
    (is_Some (card w !! number) ->
       BankingSystem.create_account w =
         (Raise IntegrityError, world_announced w number pin)).
Proof.
  intros Hw. destruct (new_well_formed w Hw) as (number & pin & Hnew & Hwf).
  exists number, pin. split; [exact Hwf|].
  unfold BankingSystem.create_account, bind. rewrite Hnew.
  unfold database.add_card. cbn [Account.number Account.pin card world_announced].
  split.
  - intros ->. reflexivity.
  - intros [r ->]. reflexivity.
Qed.

Lemma create_account_outcomes_witness :
  exists number pin,
    row_well_formed number pin /\
    (card (run_ex "") !! number = None ->
       BankingSystem.create_account (run_ex "") =
         (Ok tt, set_card (<[number := (pin, 0)]> (card (run_ex "")))
                   (world_announced (run_ex "") number pin))) /\
    (is_Some (card (run_ex "") !! number) ->
       BankingSystem.create_account (run_ex "") =
         (Raise IntegrityError, world_announced (run_ex "") number pin)).
Proof.
  apply (create_account_outcomes (run_ex "")).
  intros i. unfold run_ex, randint.
  pose proof (Nat.mod_upper_bound i 10 ltac:(discriminate)). lia.
Defined.

(** The collision, on a table that already holds the number that the draws
    0, 1, 2, ... give. *)
Example create_account_collision :
  let w := World (<[sender_ex := ("0000", 5)]> ∅) [] [] (fun i => Z.of_nat (i mod 10)) in
  (BankingSystem.create_account w).1 = Raise IntegrityError /\
  card (BankingSystem.create_account w).2 = card w /\
  stdout (BankingSystem.create_account w).2 = announced sender_ex "9012".
Proof. vm_compute. split_and!; reflexivity. Qed.

(** X11: when [create_account] returns, the number and the PIN it has
    written to the console are stored with balance 0, and a [login] that
    reads them opens the account menu on that account. *)
Theorem create_then_login (w w1 : world) :
  BankingSystem.create_account w = (Ok tt, w1) ->
  exists number pin,
    stdout w1 = stdout w ++ announced number pin /\
    card w1 !! number = Some (pin, 0) /\
    forall fuel w2 rest,
      card w2 = card w1 -> stdin w2 = number :: pin :: rest ->
      BankingSystem.login fuel w2 =
      Account.menu fuel (Account.mk number pin 0)
        (written (BankingSystem.msg_logged_in +:+ LF) (login_prompted w2 rest)).
Proof.
  unfold BankingSystem.create_account, bind.
  destruct (new_cases w) as [(w' & -> & _)|(number & pin & ->)]; [discriminate|].
  unfold database.add_card. cbn [Account.number Account.pin card world_announced].
  destruct (card w !! number) eqn:Hr; [discriminate|].
  intros [= <-]. exists number, pin. cbn [stdout card set_card].
  split; [reflexivity|]. split; [apply lookup_insert_eq|].
  intros fuel w2 rest Hc Hin.
  rewrite (login_reads fuel w2 number pin rest Hin), Hc.
  cbn [card set_card]. rewrite lookup_insert_eq, String.eqb_refl. reflexivity.
Qed.

Lemma create_then_login_witness :
  exists number pin,
    stdout (BankingSystem.create_account (run_ex "")).2 =
      stdout (run_ex "") ++ announced number pin /\
    card (BankingSystem.create_account (run_ex "")).2 !! number = Some (pin, 0) /\
    forall fuel w2 rest,
      card w2 = card (BankingSystem.create_account (run_ex "")).2 ->
      stdin w2 = number :: pin :: rest ->
      BankingSystem.login fuel w2 =
      Account.menu fuel (Account.mk number pin 0)
        (written (BankingSystem.msg_logged_in +:+ LF) (login_prompted w2 rest)).
Proof.
  apply (create_then_login (run_ex "")).
  vm_compute. reflexivity.
Defined.

(** X12: once [delete_account] has run, a [login] with the number of the
    closed account fails, whatever PIN is entered: the message is the one
    for a wrong card number or PIN and no session is opened. *)
Theorem closed_account_cannot_login (self : Account.t) (w w1 : world) :
  Account.delete_account self w = (Ok tt, w1) ->
  forall fuel w2 pin_inp rest,
    card w2 = card w1 ->
    stdin w2 = Account.number self :: pin_inp :: rest ->
    BankingSystem.login fuel w2 =
    (Ok tt, written (BankingSystem.msg_wrong +:+ LF) (login_prompted w2 rest)).
Proof.
  unfold Account.delete_account, database.delete_card. intros [= <-].
  intros fuel w2 pin_inp rest Hc Hin.
  rewrite (login_reads fuel w2 _ pin_inp rest Hin), Hc.
  cbn [card set_card]. rewrite lookup_delete_eq. reflexivity.
Qed.

Lemma closed_account_cannot_login_witness :
  BankingSystem.login 3
    (set_stdin [sender_ex; "9012"] (Account.delete_account self_ex (world_ex "")).2) =
  (Ok tt,
   written (BankingSystem.msg_wrong +:+ LF)
     (login_prompted
        (set_stdin [sender_ex; "9012"] (Account.delete_account self_ex (world_ex "")).2) [])).
Proof.
  apply (closed_account_cannot_login self_ex (world_ex "")
           (Account.delete_account self_ex (world_ex "")).2 eq_refl 3
           (set_stdin [sender_ex; "9012"] (Account.delete_account self_ex (world_ex "")).2)
           "9012" []);
    reflexivity.
Defined.

(** ** Transfers and the money in the table *)

Lemma transfer_to_malformed_helper self receiver w e :
  receiver <> Account.number self ->
  is_card_number_valid receiver = Raise e ->
  Account.transfer_money self receiver w = (Raise e, w).
Proof.
  intros Hne Hv. unfold Account.transfer_money.
  apply String.eqb_neq in Hne. rewrite Hne.
  unfold bind, lift. rewrite Hv. reflexivity.
Qed.



Lemma total_insert c k r :
  c !! k = None -> total_balance (<[k := r]> c) = r.2 + total_balance c.
Proof.
  intros Hk. unfold total_balance.
  rewrite map_fold_insert_L; [reflexivity | | exact Hk].
  intros j1 j2 z1 z2 y _ _ _. lia.
Qed.

Lemma total_alter c k r (f : string * Z -> string * Z) :
  c !! k = Some r ->
  total_balance (alter f k c) = total_balance c + ((f r).2 - r.2).
Proof.
  intros Hk. rewrite (alter_alt_Some f c k r Hk).
  rewrite <- (insert_delete_eq c k (f r)).
  rewrite <- (insert_delete_id c k r Hk) at 2.
  rewrite !total_insert by apply lookup_delete_eq. lia.
Qed.

Lemma total_moved sender receiver a c :
  receiver <> sender -> is_Some (c !! receiver) ->
  total_balance (moved sender receiver a c) =
  total_balance c + (if c !! sender is Some _ then 0 else a).
Proof.
  intros Hne [rr Hr]. unfold moved.
  destruct (c !! sender) as [rs|] eqn:Hs.
  - erewrite total_alter by (rewrite lookup_alter_ne by congruence; exact Hr).
    erewrite total_alter by exact Hs. simpl. lia.
  - rewrite (alter_id' _ c sender Hs).
    erewrite total_alter by exact Hr. simpl. lia.
Qed.

(** What a call of [transfer_money] can do to the table. *)
Lemma transfer_money_table self receiver w r w' :
  Account.transfer_money self receiver w = (r, w') ->
  card w' = card w \/
  (exists a, receiver <> Account.number self /\ is_Some (card w !! receiver) /\
             a <= Account.balance self /\
             card w' = moved (Account.number self) receiver a (card w)).
Proof.
  unfold Account.transfer_money.
  destruct (String.eqb_spec receiver (Account.number self)) as [Heq|Hne].
  { intros [= <- <-]. left. reflexivity. }
  unfold bind at 1, lift at 1.
  destruct (is_card_number_valid receiver) as [[|]|e] eqn:Hv; cbn [negb].
  2:{ intros [= <- <-]. left. reflexivity. }
  2:{ intros [= <- <-]. left. reflexivity. }
  unfold bind at 1, do_card_number_exists, bind at 1, database.get_card_by_number, ret at 1.
  destruct (card w !! receiver) as [[p b]|] eqn:Hr; cbn [negb].
  2:{ intros [= <- <-]. left. reflexivity. }
  unfold bind at 1.
  destruct (stdin w) as [|line rest] eqn:Hin.
  { destruct (input_eof Account.prompt_amount w Hin) as (w1 & -> & Hc).
    intros [= <- <-]. left. assumption. }
  rewrite (input_prompt_line Account.prompt_amount w line rest eq_refl Hin).
  unfold bind at 1, lift at 1.
  destruct (Py.int line) as [a|e] eqn:Hint.
  2:{ intros [= <- <-]. left. reflexivity. }
  destruct (Z.leb_spec a (Account.balance self)) as [Hle|Hgt].
  - intros [= <- <-]. right. exists a. split_and!; eauto.
  - intros [= <- <-]. left. reflexivity.
Qed.





(** ** What a session keeps *)

Section Stable.

Context {A : Type}.
Variable I : world -> Prop.
Hypothesis I_out : forall w o, I w -> I (set_stdout o w).
Hypothesis I_in : forall w i, I w -> I (set_stdin i w).
Variable Q : A -> world -> Prop.
Variable E : world -> Prop.
Hypothesis HE : forall w, I w -> E w.

Lemma stable_print_then s (k : M A) :
  hoare I k Q E -> hoare I (bind (print s) (fun _ => k)) Q E.
Proof. intros Hk w H. unfold bind, print. apply Hk, I_out, H. Qed.

Lemma stable_input_then p (k : string -> M A) :
  (forall line, hoare I (k line) Q E) -> hoare I (bind (input p) k) Q E.
Proof.
  intros Hk w H. unfold bind, input.
  destruct (p =? "")%string; cbn [stdin set_stdout];
    (destruct (stdin w) as [|line rest];
     [apply HE; auto | apply Hk; auto]).
Qed.

Lemma stable_lift_then {B} (r : result B) (k : B -> M A) :
  (forall b, r = Ok b -> hoare I (k b) Q E) -> hoare I (bind (lift r) k) Q E.
Proof.
  intros Hk w H. unfold bind, lift. destruct r as [b|e].
  - apply (Hk b eq_refl w H).
  - apply HE, H.
Qed.

Lemma stable_found_then number (k : bool -> M A) :
  (forall found, hoare I (k found) Q E) ->
  hoare I (bind (do_card_number_exists number) k) Q E.
Proof. intros Hk w H. unfold bind. apply Hk, H. Qed.

End Stable.

Lemma keeps_out T P w o : keeps T P w -> keeps T P (set_stdout o w).
Proof. intros H. exact H. Qed.

Lemma keeps_in T P w i : keeps T P w -> keeps T P (set_stdin i w).
Proof. intros H. exact H. Qed.

Create HintDb stable.
#[local] Hint Resolve keeps_out keeps_in : stable.

(** Strips one statement off the front of a computation whose invariant
    does not depend on the console. *)
Ltac stable_step :=
  first
    [ apply stable_print_then; [solve [auto with stable]|]
    | apply stable_input_then; [solve [auto with stable] | solve [auto with stable]
                               | solve [auto with stable] | intros ?]
    | apply stable_lift_then; [solve [auto with stable] | intros ? ?]
    | apply stable_found_then; intros ? ].

Section SessionKeeps.

Variable T : gmap string (string * Z) -> Prop.
Variable P : (nat -> Z) -> Prop.
Variable me : string.
Hypothesis T_alter : forall c k d,
  T c -> T (alter (fun r : string * Z => (r.1, r.2 + d)) k c).
Hypothesis T_delete : forall c, T c -> T (delete me c).

Lemma keeps_transfer_money self receiver :
  hoare (keeps T P) (Account.transfer_money self receiver)
        (fun self' w => keeps T P w /\ Account.number self' = Account.number self)
        (keeps T P).
Proof.
  unfold Account.transfer_money.
  destruct (receiver =? Account.number self)%string.
  { stable_step. apply hoare_ret. auto. }
  stable_step. destruct b; cbn [negb].
  2:{ stable_step. apply hoare_ret. auto. }
  stable_step. destruct found; cbn [negb].
  2:{ stable_step. apply hoare_ret. auto. }
  stable_step. stable_step.
  destruct (b <=? Account.balance self).
  - intros w [HT HP]. split; [|reflexivity]. split; [|exact HP].
    cbn [card set_card set_stdout]. apply T_alter, T_alter, HT.
  - stable_step. apply hoare_ret. auto.
Qed.

Lemma keeps_menu_turn self :
  Account.number self = me ->
  hoare (keeps T P) (Account.menu_turn self)
        (fun next w =>
           keeps T P w /\ forall self', next = Some self' -> Account.number self' = me)
        (keeps T P).
Proof.
  intros Hme. unfold Account.menu_turn.
  stable_step. stable_step.
  destruct (line =? "0")%string.
  { stable_step. apply hoare_raise. auto. }
  destruct (line =? "1")%string.
  { stable_step. apply hoare_ret. intros w H. split; [exact H | congruence]. }
  destruct (line =? "2")%string.
  { stable_step. stable_step.
    intros w [HT HP]. split; [|intros self' [= <-]; exact Hme].
    split; [|exact HP]. cbn [card set_card set_stdout]. apply T_alter, HT. }
  destruct (line =? "3")%string.
  { stable_step. stable_step.
    eapply hoare_bind; [apply keeps_transfer_money|].
    intros self'. apply hoare_ret. intros w [H Hn].
    split; [exact H | intros ? [= <-]; congruence]. }
  destruct (line =? "4")%string.
  { intros w [HT HP]. split; [|intros self' [= <-]; exact Hme].
    split; [|exact HP]. cbn [card set_card]. rewrite Hme. apply T_delete, HT. }
  destruct (line =? "5")%string.
  { stable_step. apply hoare_ret. intros w H. split; [exact H | discriminate]. }
  apply hoare_raise. auto.
Qed.

Lemma keeps_menu fuel : forall self,
  Account.number self = me ->
  hoare (keeps T P) (Account.menu fuel self) (fun _ => keeps T P) (keeps T P).
Proof.
  induction fuel as [|fuel IH]; intros self Hme; cbn [Account.menu].
  - apply hoare_raise. auto.
  - eapply hoare_bind; [apply keeps_menu_turn, Hme|].
    intros [self'|].
    + intros w [H Hn]. apply IH; [apply Hn; reflexivity | exact H].
    + apply hoare_ret. intros w [H _]. exact H.
Qed.

End SessionKeeps.

Lemma fst_alter_balance (c : gmap string (string * Z)) k n d :
  fst <$> alter (fun r : string * Z => (r.1, r.2 + d)) k c !! n = fst <$> c !! n.
Proof.
  rewrite lookup_alter. destruct (decide (k = n)) as [->|]; [|reflexivity].
  destruct (c !! n) as [[p b]|]; reflexivity.
Qed.

Lemma others_alter c0 me c k d :
  others_kept c0 me c /\ own_kept_or_gone c0 me c ->
  others_kept c0 me (alter (fun r : string * Z => (r.1, r.2 + d)) k c) /\
  own_kept_or_gone c0 me (alter (fun r : string * Z => (r.1, r.2 + d)) k c).
Proof.
  intros [Ho Hm]. split.
  - intros n Hn. rewrite fst_alter_balance. apply Ho, Hn.
  - destruct Hm as [Hm|Hm].
    + left. rewrite fst_alter_balance. exact Hm.
    + right. pose proof (fst_alter_balance c k me d) as H. rewrite Hm in H.
      destruct (alter _ k c !! me); [discriminate | reflexivity].
Qed.

Lemma others_delete c0 me c :
  others_kept c0 me c /\ own_kept_or_gone c0 me c ->
  others_kept c0 me (delete me c) /\ own_kept_or_gone c0 me (delete me c).
Proof.
  intros [Ho Hm]. split.
  - intros n Hn. rewrite lookup_delete_ne by congruence. apply Ho, Hn.
  - right. apply lookup_delete_eq.
Qed.

(** X16: a session, however long and however it ends, neither creates nor
    deletes the row of another account and changes no PIN: every other
    number has a row afterwards exactly if it had one before, with the same
    PIN, and the session's own row either keeps its PIN or is gone. *)
Theorem session_leaves_other_accounts (fuel : nat) (self : Account.t) (w : world) :
  let w' := (Account.menu fuel self w).2 in
  others_kept (card w) (Account.number self) (card w') /\
  own_kept_or_gone (card w) (Account.number self) (card w').
Proof.
  cbv zeta.
  pose proof (keeps_menu
                (fun c => others_kept (card w) (Account.number self) c /\
                          own_kept_or_gone (card w) (Account.number self) c)
                (fun _ => True) (Account.number self)
                (fun c k d => others_alter (card w) (Account.number self) c k d)
                (others_delete (card w) (Account.number self))
                fuel self eq_refl w) as H.
  destruct (Account.menu fuel self w) as [[u|e] w']; cbn [snd];
    apply H; (split; [|exact I]); (split; [intros n _; reflexivity | left; reflexivity]).
Qed.

(** ** The cached balance *)

Lemma on_card_out T w o : on_card T w -> on_card T (set_stdout o w).
Proof. intros H. exact H. Qed.

Lemma on_card_in T w i : on_card T w -> on_card T (set_stdin i w).
Proof. intros H. exact H. Qed.

#[local] Hint Resolve on_card_out on_card_in : stable.

Lemma cache_agrees_add_income self c income :
  cache_agrees self c ->
  cache_agrees (Account.set_balance (Account.balance self + income) self)
    (alter (fun r : string * Z => (r.1, r.2 + income)) (Account.number self) c).
Proof.
  intros Ha p b. cbn [Account.number Account.set_balance Account.balance].
  rewrite lookup_alter_eq.
  destruct (c !! Account.number self) as [[p0 b0]|] eqn:Hr; [|discriminate].
  intros [= <- <-]. rewrite (Ha p0 b0 Hr). reflexivity.
Qed.

Lemma cache_agrees_moved self receiver c a :
  cache_agrees self c -> receiver <> Account.number self ->
  cache_agrees (Account.set_balance (Account.balance self - a) self)
    (moved (Account.number self) receiver a c).
Proof.
  intros Ha Hne p b. cbn [Account.number Account.set_balance Account.balance].
  unfold moved. rewrite lookup_alter_ne, lookup_alter_eq by assumption.
  destruct (c !! Account.number self) as [[p0 b0]|] eqn:Hr; [|discriminate].
  intros [= <- <-]. rewrite (Ha p0 b0 Hr). lia.
Qed.

Lemma cache_transfer_money self receiver :
  hoare (on_card (cache_agrees self)) (Account.transfer_money self receiver)
        (fun self' w => cache_agrees self' (card w) /\
                        Account.number self' = Account.number self /\
                        Account.pin self' = Account.pin self)
        (fun _ => True).
Proof.
  unfold Account.transfer_money.
  destruct (String.eqb_spec receiver (Account.number self)) as [Heq|Hne].
  { stable_step. apply hoare_ret. auto. }
  stable_step. destruct b; cbn [negb].
  2:{ stable_step. apply hoare_ret. auto. }
  stable_step. destruct found; cbn [negb].
  2:{ stable_step. apply hoare_ret. auto. }
  stable_step. stable_step.
  destruct (b <=? Account.balance self).
  - intros w Hw. split; [|split; reflexivity].
    apply (cache_agrees_moved self receiver (card w) b Hw Hne).
  - stable_step. apply hoare_ret. auto.
Qed.

Lemma cache_menu_turn self :
  hoare (on_card (cache_agrees self)) (Account.menu_turn self)
        (fun next w =>
           forall self', next = Some self' ->
             cache_agrees self' (card w) /\
             Account.number self' = Account.number self /\
             Account.pin self' = Account.pin self)
        (fun _ => True).
Proof.
  unfold Account.menu_turn.
  stable_step. stable_step.
  destruct (line =? "0")%string.
  { stable_step. apply hoare_raise. auto. }
  destruct (line =? "1")%string.
  { stable_step. apply hoare_ret. intros w H self' [= <-]. auto. }
  destruct (line =? "2")%string.
  { stable_step. stable_step.
    intros w Hw self' [= <-]. split; [|split; reflexivity].
    apply (cache_agrees_add_income self (card w) b Hw). }
  destruct (line =? "3")%string.
  { stable_step. stable_step.
    eapply hoare_bind; [apply cache_transfer_money|].
    intros self'. apply hoare_ret. intros w H self'' [= <-]. exact H. }
  destruct (line =? "4")%string.
  { intros w H self' [= <-]. split; [|split; reflexivity].
    intros p b. cbn [card set_card]. rewrite lookup_delete_eq. discriminate. }
  destruct (line =? "5")%string.
  { stable_step. apply hoare_ret. intros w H self' [=]. }
  apply hoare_raise. auto.
Qed.



(** ** What the table holds *)

Lemma twf_alter c k d :
  table_well_formed c ->
  table_well_formed (alter (fun r : string * Z => (r.1, r.2 + d)) k c).
Proof.
  intros Hc n p b Hn.
  pose proof (fst_alter_balance c k n d) as Hf. rewrite Hn in Hf.
  destruct (c !! n) as [[p0 b0]|] eqn:Hr; [|discriminate].
  injection Hf as <-. exact (Hc n p b0 Hr).
Qed.

Lemma twf_delete c k : table_well_formed c -> table_well_formed (delete k c).
Proof.
  intros Hc n p b Hn. apply lookup_delete_Some in Hn as [_ Hn]. exact (Hc n p b Hn).
Qed.

Lemma twf_insert c number pin :
  table_well_formed c -> row_well_formed number pin ->
  table_well_formed (<[number := (pin, 0)]> c).
Proof.
  intros Hc Hrow n p b Hn. rewrite lookup_insert in Hn.
  destruct (decide (number = n)) as [->|].
  - injection Hn as <- _. exact Hrow.
  - exact (Hc n p b Hn).
Qed.

Lemma twf_create_account :
  hoare (keeps table_well_formed draws_ok) BankingSystem.create_account
        (fun _ => keeps table_well_formed draws_ok) (keeps table_well_formed draws_ok).
Proof.
  intros w [HT HP].
  destruct (new_well_formed w HP) as (number & pin & Hnew & Hrow).
  unfold BankingSystem.create_account, bind. rewrite Hnew.
  unfold database.add_card. cbn [Account.number Account.pin card world_announced].
  assert (draws_ok (fun i => randint w (13 + i)%nat)) as HP' by (intros i; apply HP).
  destruct (card w !! number); (split; [|exact HP']); cbn [card set_card].
  - exact HT.
  - apply twf_insert; assumption.
Qed.

Lemma twf_login fuel :
  hoare (keeps table_well_formed draws_ok) (BankingSystem.login fuel)
        (fun _ => keeps table_well_formed draws_ok) (keeps table_well_formed draws_ok).
Proof.
  unfold BankingSystem.login.
  stable_step. stable_step. stable_step. stable_step.
  intros w Hw. unfold bind at 1, database.get_card_by_number.
  destruct (card w !! line) as [[pin balance]|]; [|exact Hw].
  destruct (negb (line0 =? pin)%string); [exact Hw|].
  apply (stable_print_then (keeps table_well_formed draws_ok)); [auto with stable| |exact Hw].
  apply (keeps_menu table_well_formed draws_ok line); [| |reflexivity].
  - intros c k d. apply twf_alter.
  - intros c. apply twf_delete.
Qed.

Lemma twf_main_menu fuel :
  hoare (keeps table_well_formed draws_ok) (BankingSystem.menu fuel)
        (fun _ => keeps table_well_formed draws_ok) (keeps table_well_formed draws_ok).
Proof.
  induction fuel as [|fuel IH]; cbn [BankingSystem.menu].
  - apply hoare_raise. auto.
  - eapply hoare_bind; [|intros u; exact IH].
    unfold BankingSystem.menu_turn.
    stable_step. stable_step.
    destruct (line =? "0")%string.
    { stable_step. apply hoare_raise. auto. }
    destruct (line =? "1")%string; [apply twf_create_account|].
    destruct (line =? "2")%string; [apply twf_login|].
    apply hoare_raise. auto.
Qed.

(** X18: as long as the draws are in 0..9, whatever is typed, every row
    that the program leaves in the table is well formed if the rows it
    found were: the number has 16 decimal digits, starts with 400000 and
    passes [is_card_number_valid], and the PIN has four decimal digits. *)
Theorem table_stays_well_formed (fuel : nat) (w : world) :
  table_well_formed (card w) ->
  randint_ok w ->
  table_well_formed (card (BankingSystem.menu fuel w).2).
Proof.
  intros HT HP. pose proof (twf_main_menu fuel w (conj HT HP)) as H.
  destruct (BankingSystem.menu fuel w) as [[u|e] w']; destruct H as [H _]; exact H.
Qed.

Lemma table_stays_well_formed_witness :
  table_well_formed (card (BankingSystem.menu 10 (run_ex "-50")).2).
Proof.
  apply (table_stays_well_formed 10 (run_ex "-50")).
  - intros n p b Hn. unfold run_ex, card in Hn. rewrite lookup_empty in Hn. discriminate.
  - intros i. unfold run_ex, randint.
    pose proof (Nat.mod_upper_bound i 10 ltac:(discriminate)). lia.
Defined.

